(** * tubely: the video upload handler of [src/api/videos.ts]

    A shallow embedding of [handlerUploadVideo] and of its two helpers
    [getVideoAspectRatio] and [processVideoForFastStart], followed by the
    properties of the upload pipeline.

    The handler is sequential [async] code: every [await] is a sequencing
    point, so the embedding threads an explicit world (record store, temporary
    files, bucket, log of collaborator calls) through an exception monad.
    State written before a [throw] stays written. *)

From Stdlib Require Import ZArith Lia Bool.
From Stdlib Require Import Floats.SpecFloat.
From stdpp Require Import base option list gmap strings.

Set Warnings "-register-all".
Local Open Scope Z_scope.

(** ** JavaScript values *)

Module JS.

(** A JS [number] is an IEEE 754 binary64 value. *)
Definition prec : Z := 53.
Definition emax : Z := 1024.
Definition number : Type := spec_float.

(** The number denoted by an integer (literal, or JSON integer). *)
Definition of_Z (n : Z) : number := binary_normalize prec emax n 0 false.

Definition div (x y : number) : number := SFdiv prec emax x y.
Definition gt (x y : number) : bool := SFltb y x.
Definition lt (x y : number) : bool := SFltb x y.

(** The decimal literals of the classifier, as the doubles nearest to them. *)
Definition lit_1_7 : number := S754_finite false 7656119366529843 (-52).
Definition lit_1_8 : number := S754_finite false 8106479329266893 (-52).
Definition lit_0_5 : number := S754_finite false 4503599627370496 (-53).
Definition lit_0_6 : number := S754_finite false 5404319552844595 (-53).

(** [1 << 30]: the shift count is taken modulo 32 and the result wraps to a
    signed 32-bit integer. *)
Definition wrap32 (z : Z) : Z := (z + 2 ^ 31) mod 2 ^ 32 - 2 ^ 31.
Definition shl (a b : Z) : Z := wrap32 (Z.shiftl (wrap32 a) (b mod 32)).

Inductive value : Type :=
| Undefined
| Null
| Bool (b : bool)
| Num (n : number)
| Str (s : string)
| Arr (items : list value)
| Obj (fields : list (string * value)).

Fixpoint assoc {A : Type} (k : string) (l : list (string * A)) : option A :=
  match l with
  | [] => None
  | (k', v) :: l' => if String.eqb k k' then Some v else assoc k l'
  end.

(** Falsy values: [undefined], [null], [false], [0], [-0], [NaN], [""]. *)
Definition truthy (v : value) : bool :=
  match v with
  | Undefined | Null => false
  | Bool b => b
  | Num (S754_zero _) | Num S754_nan => false
  | Num _ => true
  | Str s => negb (String.eqb s "")
  | Arr _ | Obj _ => true
  end.

(** [v === 0] *)
Definition strict_eq_zero (v : value) : bool :=
  match v with
  | Num (S754_zero _) => true
  | _ => false
  end.

(** Property read [v.k] or [v[k]], for the keys the handler uses
    ([streams], [length], [0], [width], [height]). [None] is the [TypeError]
    of reading a property of [undefined] or [null]. Numbers and booleans
    have none of these properties; arrays and strings have [length] and
    the index [0] only. *)
Definition get (v : value) (k : string) : option value :=
  match v with
  | Undefined | Null => None
  | Bool _ | Num _ => Some Undefined
  | Str s =>
      if String.eqb k "length" then Some (Num (of_Z (Z.of_nat (String.length s))))
      else if String.eqb k "0" then
        Some (match s with
              | EmptyString => Undefined
              | String c _ => Str (String c EmptyString)
              end)
      else Some Undefined
  | Arr items =>
      if String.eqb k "length" then Some (Num (of_Z (Z.of_nat (length items))))
      else if String.eqb k "0" then Some (hd Undefined items)
      else Some Undefined
  | Obj fields => Some (default Undefined (assoc k fields))
  end.

(** The values whose conversion to a primitive throws a [TypeError]. A
    parsed object has only data properties, none of them callable: with an
    own [toString] it is left without a usable conversion method (the
    inherited [valueOf] returns the object itself), and without one the
    inherited [toString] answers. A parsed array is converted by joining the
    strings of its elements, which converts every element that is an object
    or an array in turn. *)
Fixpoint no_primitive (v : value) : bool :=
  match v with
  | Obj fields => bool_decide (is_Some (assoc "toString" fields))
  | Arr items => existsb no_primitive items
  | _ => false
  end.

End JS.

(** What a JS runtime supplies and this file does not define: the JSON
    reader, the number read from a string, or from the string form of an
    array or object that has one, and [path.join] of Node's [path] module. *)
Class Runtime : Type := {
  JSON_parse : string → option JS.value;
  ToNumber_coerce : JS.value → JS.number;
  path_join : string → string → string
}.

(** ** Exceptions *)

Inductive Exn : Type :=
| BadRequestError (message : string)
| NotFoundError (message : string)
| UserForbiddenError (message : string)
| Error (message : string)
| TypeError
| SyntaxError
| Foreign (name message : string).

Inductive Outcome (A : Type) : Type :=
| Returned (a : A)
| Thrown (e : Exn).
Arguments Returned {A} a.
Arguments Thrown {A} e.

(** [s] occurs in [t]. *)
Definition contains (t s : string) : Prop := ∃ pre post, t = pre +:+ s +:+ post.

(** ** The world of one request *)

Definition Blob : Type := list Byte.byte.

(** A row of the [videos] table, keyed by the video identifier. *)
Record VideoRow : Type := {
  row_userID : string;
  row_videoURL : option string
}.

(** The object [getVideo] hands to the handler. *)
Record Video : Type := {
  video_id : string;
  userID : string;
  videoURL : option string
}.

Record S3Object : Type := {
  s3_source : string;
  s3_body : option Blob;
  s3_contentType : string
}.

(** Calls to collaborators, in the order they are issued. *)
Inductive Event : Type :=
| EvGetBearerToken
| EvValidateJWT (token secret : string)
| EvGetVideo (videoId : string)
| EvFormData
| EvBunWrite (path : string)
| EvSpawn (argv : list string)
| EvUploadVideoToS3 (key path contentType : string)
| EvUpdateVideo (video : Video)
| EvRm (path : string) (force : bool).

Record World : Type := {
  db : gmap string VideoRow;
  files : gmap string Blob;
  bucket : gmap string S3Object;
  trace : list Event
}.

Definition set_db (f : gmap string VideoRow → gmap string VideoRow) (w : World) : World :=
  {| db := f (db w); files := files w; bucket := bucket w; trace := trace w |}.
Definition set_files (f : gmap string Blob → gmap string Blob) (w : World) : World :=
  {| db := db w; files := f (files w); bucket := bucket w; trace := trace w |}.
Definition set_bucket (f : gmap string S3Object → gmap string S3Object) (w : World) : World :=
  {| db := db w; files := files w; bucket := f (bucket w); trace := trace w |}.
Definition log (ev : Event) (w : World) : World :=
  {| db := db w; files := files w; bucket := bucket w; trace := trace w ++ [ev] |}.

(** ** Requests and configuration *)

Record File : Type := {
  file_size : Z;
  file_type : string;
  file_bytes : Blob
}.

Inductive FormValue : Type :=
| FormString (s : string)
| FormFile (f : File).

Definition Headers : Type := list (string * string).

Record BunRequest : Type := {
  params_videoId : option string;
  headers : Headers;
  body : Outcome (list (string * FormValue))
}.

Record ApiConfig : Type := {
  jwtSecret : string;
  s3Bucket : string;
  s3Region : string
}.

Record Response : Type := {
  status : Z;
  payload : Video
}.

(** ** What the outside answers

    The collaborators whose code is not in [src/api/videos.ts] ([../auth],
    [../s3], the file system, the two subprocesses) answer through this
    record; the handler's own control flow is fixed below. *)

Record ProcessResult : Type := {
  exitCode : Z;
  stdout : string;
  stderr : string;
  files_after : gmap string Blob
}.

Record Env : Type := {
  env_getBearerToken : Headers → Outcome string;
  env_validateJWT : string → string → Outcome string;
  env_write : string → File → option Exn;
  env_spawn : list string → gmap string Blob → Outcome ProcessResult;
  env_s3 : string → option Exn;
  env_rm : string → option Exn;
  env_rm_second_settles_first : bool
}.

(** ** Sequencing with exceptions *)

Definition Async (A : Type) : Type := World → Outcome A * World.

Definition resolve {A : Type} (a : A) : Async A := λ w, (Returned a, w).
Definition throw {A : Type} (e : Exn) : Async A := λ w, (Thrown e, w).
Definition await {A B : Type} (m : Async A) (k : A → Async B) : Async B :=
  λ w, match m w with
       | (Returned a, w') => k a w'
       | (Thrown e, w') => (Thrown e, w')
       end.
Definition effect (f : World → World) : Async unit := λ w, (Returned tt, f w).
Definition settled {A : Type} (o : Outcome A) : Async A := λ w, (o, w).
Definition read {A : Type} (f : World → A) : Async A := λ w, (Returned (f w), w).

#[global] Instance Async_ret : MRet Async := @resolve.
#[global] Instance Async_bind : MBind Async := λ A B k m, await m k.

(** ** The handler and its helpers *)

Section Handler.
Context `{Runtime}.
Variable env : Env.

(** *** Collaborators *)

Definition getBearerToken (hs : Headers) : Async string :=
  effect (log EvGetBearerToken);;
  settled (env_getBearerToken env hs).

Definition validateJWT (token secret : string) : Async string :=
  effect (log (EvValidateJWT token secret));;
  settled (env_validateJWT env token secret).

(** Modelled from the spec: [getVideo] and [updateVideo] of [../db/videos],
    "a key-value record store keyed by video identifier":
    [VideoStore.get(id) → record | null], [VideoStore.update(record) → void],
    the update rewriting the row stored under the record's identifier. *)
Definition getVideo (videoId : string) : Async (option Video) :=
  effect (log (EvGetVideo videoId));;
  read (λ w, (λ r, {| video_id := videoId; userID := row_userID r;
                      videoURL := row_videoURL r |}) <$> db w !! videoId).

Definition store_row (video : Video) (d : gmap string VideoRow) : gmap string VideoRow :=
  match d !! video_id video with
  | Some _ => <[video_id video := {| row_userID := userID video;
                                     row_videoURL := videoURL video |}]> d
  | None => d
  end.

Definition updateVideo (video : Video) : Async unit :=
  effect (log (EvUpdateVideo video));;
  effect (set_db (store_row video)).

(** [req.formData()] and [formData.get(name)]: the first entry of that name. *)
Definition formData (req : BunRequest) : Async (list (string * FormValue)) :=
  effect (log EvFormData);;
  settled (body req).

(** [Bun.write(path, file)] *)
Definition Bun_write (path : string) (file : File) : Async unit :=
  effect (log (EvBunWrite path));;
  match env_write env path file with
  | Some e => throw e
  | None => effect (set_files <[path := file_bytes file]>)
  end.

(** [Bun.spawn(argv, ...)] followed by reading the pipes and awaiting
    [process.exited]. *)
Definition Bun_spawn (argv : list string) : Async ProcessResult :=
  effect (log (EvSpawn argv));;
  fs ← read files;
  match env_spawn env argv fs with
  | Thrown e => throw e
  | Returned p => effect (set_files (λ _, files_after p));; resolve p
  end.

(** Modelled from the spec: [uploadVideoToS3] of [../s3],
    "[ObjectStorage.put(key, localFilePath, contentType) → void] (fails on
    transport/storage error; propagated as fatal)". *)
Definition uploadVideoToS3 (cfg : ApiConfig) (key path contentType : string) : Async unit :=
  effect (log (EvUploadVideoToS3 key path contentType));;
  match env_s3 env key with
  | Some e => throw e
  | None =>
      fs ← read files;
      effect (set_bucket <[key := {| s3_source := path; s3_body := fs !! path;
                                     s3_contentType := contentType |}]>)
  end.

(** [rm(path, { force })] of [fs/promises]: with [force] a missing path is
    not an error; any other failure of the removal rejects. *)
Definition rm (path : string) (force : bool) : Async unit :=
  effect (log (EvRm path force));;
  match env_rm env path with
  | Some e => throw e
  | None =>
      fs ← read files;
      match fs !! path with
      | Some _ => effect (set_files (delete path))
      | None => if force then resolve tt else throw (Foreign "ENOENT" path)
      end
  end.

(** [await Promise.all([p, q])]: both operations were started when the array
    was built, so both run whatever the other does; the awaited promise
    rejects with the rejection that settles first. *)
Definition Promise_all2 {A B : Type} (p : Async A) (q : Async B) : Async (A * B) :=
  λ w, let '(a, w1) := p w in
       let '(b, w2) := q w1 in
       (match a, b with
        | Returned x, Returned y => Returned (x, y)
        | Thrown e, Returned _ => Thrown e
        | Returned _, Thrown e => Thrown e
        | Thrown e1, Thrown e2 =>
            Thrown (if env_rm_second_settles_first env then e2 else e1)
        end, w2).

Definition respondWithJSON (code : Z) (video : Video) : Response :=
  {| status := code; payload := video |}.

(** *** [getVideoAspectRatio] *)

(** The operand coercion of [/]; it throws on an array or object that has
    no primitive form. *)
Definition ToNumber (v : JS.value) : Outcome JS.number :=
  match v with
  | JS.Undefined => Returned S754_nan
  | JS.Null => Returned (S754_zero false)
  | JS.Bool b => Returned (if b then JS.of_Z 1 else S754_zero false)
  | JS.Num n => Returned n
  | JS.Str _ => Returned (ToNumber_coerce v)
  | JS.Arr _ | JS.Obj _ =>
      if JS.no_primitive v then Thrown TypeError else Returned (ToNumber_coerce v)
  end.

(** Lines 104-110: the quotient and its classification. *)
Definition classify (aspectRatio : JS.number) : string :=
  if JS.gt aspectRatio JS.lit_1_7 && JS.lt aspectRatio JS.lit_1_8 then "landscape"
  else if JS.gt aspectRatio JS.lit_0_5 && JS.lt aspectRatio JS.lit_0_6 then "portrait"
  else "other".

Definition aspectOf (width height : JS.value) : Outcome string :=
  match ToNumber width with
  | Thrown e => Thrown e
  | Returned w =>
      match ToNumber height with
      | Thrown e => Thrown e
      | Returned h =>
          let aspectRatio := JS.div w h in
          Returned (classify aspectRatio)
      end
  end.

(** Lines 94-110, on what the subprocess produced. *)
Definition probeResult (exit : Z) (outputText errorText : string) : Outcome string :=
  if negb (exit =? 0) then Thrown (Error ("ffprobe error: " +:+ errorText))
  else
    match JSON_parse outputText with
    | None => Thrown SyntaxError
    | Some stdoutJSON =>
        match JS.get stdoutJSON "streams" with
        | None => Thrown TypeError
        | Some streams =>
            if negb (JS.truthy streams)
               || JS.strict_eq_zero (default JS.Undefined (JS.get streams "length"))
            then Thrown (Error "No video streams found")
            else
              let first := default JS.Undefined (JS.get streams "0") in
              match JS.get first "width", JS.get first "height" with
              | Some width, Some height => aspectOf width height
              | _, _ => Thrown TypeError
              end
        end
    end.

Definition ffprobe_argv (filepath : string) : list string :=
  ["ffprobe"; "-v"; "error"; "-select_streams"; "v:0"; "-show_entries";
   "stream=width,height"; "-of"; "json"; filepath].

Definition getVideoAspectRatio (filepath : string) : Async string :=
  process ← Bun_spawn (ffprobe_argv filepath);
  settled (probeResult (exitCode process) (stdout process) (stderr process)).

(** *** [processVideoForFastStart] *)

Definition ffmpeg_argv (inputFilePath processedFilePath : string) : list string :=
  ["ffmpeg"; "-i"; inputFilePath; "-movflags"; "faststart"; "-map_metadata"; "0";
   "-codec"; "copy"; "-f"; "mp4"; processedFilePath].

Definition processVideoForFastStart (inputFilePath : string) : Async string :=
  let processedFilePath := inputFilePath +:+ ".processed.mp4" in
  process ← Bun_spawn (ffmpeg_argv inputFilePath processedFilePath);
  let errorText := stderr process in
  if negb (exitCode process =? 0) then throw (Error ("FFmpeg error: " +:+ errorText))
  else resolve processedFilePath.

(** *** [handlerUploadVideo] *)

Definition MAX_UPLOAD_SIZE : Z := JS.shl 1 30.

Definition publicURL (cfg : ApiConfig) (key : string) : string :=
  "https://" +:+ s3Bucket cfg +:+ ".s3." +:+ s3Region cfg +:+ ".amazonaws.com/" +:+ key.

Definition with_videoURL (video : Video) (url : string) : Video :=
  {| video_id := video_id video; userID := userID video; videoURL := Some url |}.

(** Lines 49-67, once the request has passed every check. *)
Definition storeUpload (cfg : ApiConfig) (videoId : string) (video : Video) (file : File)
  : Async Response :=
  let tempFilePath := path_join "/tmp" (videoId +:+ ".mp4") in
  Bun_write tempFilePath file;;
  aspectRatio ← getVideoAspectRatio tempFilePath;
  processedFilePath ← processVideoForFastStart tempFilePath;
  let key := aspectRatio +:+ "/" +:+ videoId +:+ ".mp4" in
  uploadVideoToS3 cfg key processedFilePath "video/mp4";;
  let videoURL := publicURL cfg key in
  let video := with_videoURL video videoURL in
  updateVideo video;;
  Promise_all2 (rm tempFilePath true) (rm processedFilePath true);;
  resolve (respondWithJSON 200 video).

(** Lines 34-47: the multipart body and the checks on the uploaded part. *)
Definition checkedUpload (cfg : ApiConfig) (req : BunRequest) (videoId : string)
  (video : Video) : Async Response :=
  fd ← formData req;
  match JS.assoc "video" fd with
  | Some (FormFile file) =>
      if file_size file >? MAX_UPLOAD_SIZE then
        throw (BadRequestError "Video file exceeds the maximum allowed size of 1GB")
      else
        let mediaType := file_type file in
        if negb (String.eqb mediaType "video/mp4") then
          throw (BadRequestError "Invalid file type. Only MP4 allowed.")
        else storeUpload cfg videoId video file
  | Some (FormString _) | None => throw (BadRequestError "Video file missing")
  end.

Definition handlerUploadVideo (cfg : ApiConfig) (req : BunRequest) : Async Response :=
  match params_videoId req with
  | None => throw (BadRequestError "Invalid video ID")
  | Some videoId =>
      if String.eqb videoId "" then throw (BadRequestError "Invalid video ID")
      else
        token ← getBearerToken (headers req);
        userID' ← validateJWT token (jwtSecret cfg);
        found ← getVideo videoId;
        match found with
        | None => throw (NotFoundError "Video not found")
        | Some video =>
            if negb (String.eqb (userID video) userID') then
              throw (UserForbiddenError
                       ("User: " +:+ userID' +:+ " is not authorized to update this video"))
            else checkedUpload cfg req videoId video
        end
  end.

End Handler.

(** ** A concrete runtime and environment

    Used to run the handler on explicit requests. *)

Definition quote : string := String (Ascii.ascii_of_nat 34) EmptyString.
Definition quoted (s : string) : string := quote +:+ s +:+ quote.

Definition probe_text (width height : string) : string :=
  "{" +:+ quoted "streams" +:+ ":[{" +:+ quoted "width" +:+ ":" +:+ width +:+ ","
      +:+ quoted "height" +:+ ":" +:+ height +:+ "}]}".
Definition probe_1920x1080 : string := probe_text "1920" "1080".
Definition probe_empty_streams : string := "{" +:+ quoted "streams" +:+ ":[]}".
Definition probe_programs_only : string := "{" +:+ quoted "programs" +:+ ":[]}".

Definition dimensions (width height : Z) : JS.value :=
  JS.Obj [("streams",
           JS.Arr [JS.Obj [("width", JS.Num (JS.of_Z width));
                           ("height", JS.Num (JS.of_Z height))]])].

(** A reader for the three texts above, and [path.join] as it acts on a
    directory and a name without separators or dot segments. *)
Definition sample_runtime : Runtime := {|
  JSON_parse := λ text,
    if String.eqb text probe_1920x1080 then Some (dimensions 1920 1080)
    else if String.eqb text probe_empty_streams then Some (JS.Obj [("streams", JS.Arr [])])
    else if String.eqb text probe_programs_only then Some (JS.Obj [("programs", JS.Arr [])])
    else None;
  ToNumber_coerce := λ _, S754_nan;
  path_join := λ dir name, dir +:+ "/" +:+ name
|}.

(** ffprobe answers as given; ffmpeg succeeds and copies its input to its
    output; the other collaborators succeed, except for the removals named
    by [rm_failure]. *)
Definition sample_env (probe_exit : Z) (probe_out probe_err : string)
  (rm_failure : string → option Exn) : Env := {|
  env_getBearerToken := λ _, Returned "token-of-alice";
  env_validateJWT := λ _ _, Returned "alice";
  env_write := λ _ _, None;
  env_spawn := λ argv fs,
    match argv with
    | "ffprobe" :: _ =>
        Returned {| exitCode := probe_exit; stdout := probe_out; stderr := probe_err;
                    files_after := fs |}
    | _ =>
        Returned {| exitCode := 0; stdout := ""; stderr := "";
                    files_after :=
                      match fs !! (default "" (argv !! 2%nat)) with
                      | Some b => <[default "" (last argv) := b]> fs
                      | None => fs
                      end |}
    end;
  env_s3 := λ _, None;
  env_rm := rm_failure;
  env_rm_second_settles_first := false
|}.

(** The environment [env], except that no bearer token is found. *)
Definition without_token (e : Exn) (env : Env) : Env := {|
  env_getBearerToken := λ _, Thrown e;
  env_validateJWT := env_validateJWT env;
  env_write := env_write env;
  env_spawn := env_spawn env;
  env_s3 := env_s3 env;
  env_rm := env_rm env;
  env_rm_second_settles_first := env_rm_second_settles_first env
|}.

Definition unauthenticated : Exn :=
  Foreign "UserNotAuthenticatedError" "Malformed authorization header".

(** A request whose "video" part is a plain form field, not a file. *)
Definition text_request (videoId : option string) : BunRequest :=
  {| params_videoId := videoId; headers := [("Authorization", "Bearer token-of-alice")];
     body := Returned [("video", FormString "clip.mp4")] |}.

Definition sample_cfg : ApiConfig :=
  {| jwtSecret := "secret"; s3Bucket := "tubely-bucket"; s3Region := "us-east-2" |}.

Definition sample_file : File :=
  {| file_size := 4; file_type := "video/mp4";
     file_bytes := [Byte.x00; Byte.x00; Byte.x00; Byte.x18] |}.

(** A part declaring one byte more than the limit; the handler rejects it on
    the declared size alone, so its payload is left out. *)
Definition oversized_file : File :=
  {| file_size := 2 ^ 30 + 1; file_type := "video/mp4"; file_bytes := [] |}.

Definition sample_request (videoId : option string) (file : File) : BunRequest :=
  {| params_videoId := videoId; headers := [("Authorization", "Bearer token-of-alice")];
     body := Returned [("video", FormFile file)] |}.

Definition sample_response : Response :=
  respondWithJSON 200
    {| video_id := "v1"; userID := "alice";
       videoURL := Some "https://tubely-bucket.s3.us-east-2.amazonaws.com/landscape/v1.mp4" |}.

Definition eperm : Exn := Foreign "EPERM" "operation not permitted".
Definition failing_removal (path : string) : string → option Exn :=
  λ p, if String.eqb p path then Some eperm else None.
Definition no_failure : string → option Exn := λ _, None.

Definition sample_world (owner : string) : World :=
  {| db := {["v1" := {| row_userID := owner; row_videoURL := None |}]};
     files := ∅; bucket := ∅; trace := [] |}.

(** The events a run adds to the log. *)
Definition issued (w w' : World) : list Event := drop (length (trace w)) (trace w').

(** ** Vocabulary of the properties *)

(** The state reached once the caller is authenticated and the record read. *)
Definition after_lookup (cfg : ApiConfig) (w : World) (token videoId : string) : World :=
  log (EvGetVideo videoId) (log (EvValidateJWT token (jwtSecret cfg)) (log EvGetBearerToken w)).

(** Calls that touch neither files, processes, the bucket nor the store. *)
Definition is_silent (ev : Event) : bool :=
  match ev with
  | EvBunWrite _ | EvSpawn _ | EvUploadVideoToS3 _ _ _ | EvUpdateVideo _ | EvRm _ _ => false
  | _ => true
  end.

(** Calls made before the record is updated. *)
Definition is_quiet (ev : Event) : bool :=
  match ev with
  | EvUpdateVideo _ | EvRm _ _ => false
  | _ => true
  end.

(** How the awaited pair of removals settles. *)
Definition cleanup_outcome (env : Env) (tempFilePath processedFilePath : string)
  (resp : Response) : Outcome Response :=
  match env_rm env tempFilePath, env_rm env processedFilePath with
  | None, None => Returned resp
  | Some e, None | None, Some e => Thrown e
  | Some e1, Some e2 => Thrown (if env_rm_second_settles_first env then e2 else e1)
  end.

Definition remove_unless_failing (env : Env) (path : string) (fs : gmap string Blob)
  : gmap string Blob :=
  match env_rm env path with
  | Some _ => fs
  | None => delete path fs
  end.

(** *** Binary64 rounding, in integers *)

(** The double with the 53-bit mantissa [m] at exponent [e]; a mantissa that
    rounding carried to [2^53] is renormalised. *)
Definition normal (m e : Z) : spec_float :=
  if m <? 2 ^ 53 then S754_finite false (Z.to_pos m) e
  else S754_finite false (Z.to_pos (2 ^ 52)) (e + 1).

(** The location of [q / 2] given the dropped bit of [q] and the location of [q]. *)
Definition half_loc (q : Z) (l : location) : location :=
  match Z.odd q, l with
  | false, loc_Exact => loc_Exact
  | false, loc_Inexact _ => loc_Inexact Lt
  | true, loc_Exact => loc_Inexact Eq
  | true, loc_Inexact _ => loc_Inexact Gt
  end.

(** Where [X / h] lies between [X / h] and its successor, from the remainder. *)
Definition loc_of (rem h : Z) : location :=
  if rem =? 0 then loc_Exact else loc_Inexact (2 * rem ?= h).

Ltac async :=
  unfold getBearerToken, validateJWT, getVideo, updateVideo, formData, Bun_write,
    Bun_spawn, uploadVideoToS3, rm, Promise_all2;
  unfold mbind, mret, Async_bind, Async_ret, await, effect, settled, read, resolve, throw.

(** * Properties *)

Lemma MAX_UPLOAD_SIZE_eq : MAX_UPLOAD_SIZE = 2 ^ 30.
Proof. reflexivity. Qed.

Lemma append_empty_r (s : string) : s +:+ "" = s.
Proof.
  induction s as [|c s IH]; [reflexivity|].
  change (String c (s +:+ "") = String c s). by rewrite IH.
Qed.

Lemma contains_suffix (pre s : string) : contains (pre +:+ s) s.
Proof. exists pre, "". by rewrite append_empty_r. Qed.

Lemma issued_app w w' evs : trace w' = trace w ++ evs → issued w w' = evs.
Proof. intros E. unfold issued. rewrite E. apply drop_app_length. Qed.

(** Closes the branch of a run that threw before the record update. *)
Ltac early Hr :=
  left; unfold throw, resolve, settled, effect, read in Hr; cbn in Hr;
  simplify_eq/=; do 2 eexists; rewrite <- ?app_assoc;
  repeat split; first [done | symmetry; apply app_nil_r].

Section Properties.
Context `{Runtime}.
Variable env : Env.
Variable cfg : ApiConfig.

Lemma bind_run {A B} (m : Async A) (k : A → Async B) w :
  (m ≫= k) w = match m w with
               | (Returned a, w') => k a w'
               | (Thrown e, w') => (Thrown e, w')
               end.
Proof. reflexivity. Qed.

Lemma Bun_write_run path file w :
  Bun_write env path file w =
  match env_write env path file with
  | Some e => (Thrown e, log (EvBunWrite path) w)
  | None => (Returned tt, set_files <[path := file_bytes file]> (log (EvBunWrite path) w))
  end.
Proof. async. by destruct (env_write env path file). Qed.

Lemma Bun_spawn_run argv w :
  Bun_spawn env argv w =
  match env_spawn env argv (files w) with
  | Thrown e => (Thrown e, log (EvSpawn argv) w)
  | Returned p => (Returned p, set_files (λ _, files_after p) (log (EvSpawn argv) w))
  end.
Proof. async. cbn. by destruct (env_spawn env argv (files w)). Qed.

Lemma uploadVideoToS3_run key path contentType w :
  uploadVideoToS3 env cfg key path contentType w =
  match env_s3 env key with
  | Some e => (Thrown e, log (EvUploadVideoToS3 key path contentType) w)
  | None =>
      (Returned tt,
       set_bucket <[key := {| s3_source := path; s3_body := files w !! path;
                              s3_contentType := contentType |}]>
         (log (EvUploadVideoToS3 key path contentType) w))
  end.
Proof. async. cbn. by destruct (env_s3 env key). Qed.

Lemma updateVideo_run video w :
  updateVideo video w = (Returned tt, set_db (store_row video) (log (EvUpdateVideo video) w)).
Proof. reflexivity. Qed.

Lemma rm_force_run path w :
  rm env path true w =
  (match env_rm env path with Some e => Thrown e | None => Returned tt end,
   log (EvRm path true) (set_files (remove_unless_failing env path) w)).
Proof.
  async. unfold remove_unless_failing, set_files, log. cbn.
  destruct (env_rm env path) as [e|]; cbn; [done|].
  destruct (files w !! path) eqn:E; cbn; [done|].
  by rewrite delete_id.
Qed.

Lemma cleanup_run temp proc resp w :
  (Promise_all2 env (rm env temp true) (rm env proc true);; resolve resp) w =
  (cleanup_outcome env temp proc resp,
   {| db := db w;
      files := remove_unless_failing env proc (remove_unless_failing env temp (files w));
      bucket := bucket w;
      trace := trace w ++ [EvRm temp true; EvRm proc true] |}).
Proof.
  unfold Promise_all2, mbind, Async_bind, await. rewrite !rm_force_run.
  unfold cleanup_outcome, set_files, log, resolve. cbn. rewrite <- app_assoc. cbn.
  destruct (env_rm env temp), (env_rm env proc); reflexivity.
Qed.

(** A run of [storeUpload] either throws before the record update, leaving
    store and bucket as they were, or goes through every step up to the
    awaited removals. *)
Lemma storeUpload_run videoId video file w o w' :
  let temp := path_join "/tmp" (videoId +:+ ".mp4") in
  let proc := temp +:+ ".processed.mp4" in
  storeUpload env cfg videoId video file w = (o, w') →
  (∃ e evs, o = Thrown e ∧ db w' = db w ∧ bucket w' = bucket w ∧
            trace w' = trace w ++ EvBunWrite temp :: evs ∧ forallb is_quiet evs = true)
  ∨ (∃ p1 cls p2,
       env_write env temp file = None ∧
       env_spawn env (ffprobe_argv temp) (<[temp := file_bytes file]> (files w))
         = Returned p1 ∧
       probeResult (exitCode p1) (stdout p1) (stderr p1) = Returned cls ∧
       env_spawn env (ffmpeg_argv temp proc) (files_after p1) = Returned p2 ∧
       exitCode p2 = 0 ∧
       let key := cls +:+ "/" +:+ videoId +:+ ".mp4" in
       let video' := with_videoURL video (publicURL cfg key) in
       env_s3 env key = None ∧
       o = cleanup_outcome env temp proc (respondWithJSON 200 video') ∧
       db w' = store_row video' (db w) ∧
       files w' = remove_unless_failing env proc
                    (remove_unless_failing env temp (files_after p2)) ∧
       bucket w' = <[key := {| s3_source := proc; s3_body := files_after p2 !! proc;
                                s3_contentType := "video/mp4" |}]> (bucket w) ∧
       trace w' = trace w ++ [EvBunWrite temp; EvSpawn (ffprobe_argv temp);
                               EvSpawn (ffmpeg_argv temp proc);
                               EvUploadVideoToS3 key proc "video/mp4";
                               EvUpdateVideo video'; EvRm temp true; EvRm proc true]).
Proof.
  intros temp proc Hr. unfold storeUpload in Hr. fold temp in Hr.
  rewrite bind_run, Bun_write_run in Hr.
  destruct (env_write env temp file) as [e|] eqn:Ew.
  { early Hr. }
  rewrite bind_run in Hr. unfold getVideoAspectRatio in Hr.
  rewrite bind_run, Bun_spawn_run in Hr. cbn [files set_files log] in Hr.
  destruct (env_spawn env (ffprobe_argv temp) _) as [p1|e] eqn:E1; [|early Hr].
  unfold settled in Hr.
  destruct (probeResult _ _ _) as [cls|e] eqn:Ep; [|early Hr].
  rewrite bind_run in Hr. unfold processVideoForFastStart in Hr. fold proc in Hr.
  rewrite bind_run, Bun_spawn_run in Hr. cbn [files set_files log] in Hr.
  destruct (env_spawn env (ffmpeg_argv temp proc) _) as [p2|e] eqn:E2; [|early Hr].
  destruct (exitCode p2 =? 0) eqn:Ex; cbn [negb] in Hr; [|early Hr].
  unfold resolve at 1 in Hr.
  rewrite bind_run, uploadVideoToS3_run in Hr.
  destruct (env_s3 env _) as [e|] eqn:Es; [early Hr|].
  rewrite bind_run, updateVideo_run, cleanup_run in Hr.
  right. exists p1, cls, p2. apply Z.eqb_eq in Ex. simplify_eq/=.
  rewrite <- !app_assoc. cbn. by repeat split.
Qed.

Lemma handler_authorized req w videoId token user row :
  params_videoId req = Some videoId → videoId ≠ "" →
  env_getBearerToken env (headers req) = Returned token →
  env_validateJWT env token (jwtSecret cfg) = Returned user →
  db w !! videoId = Some row →
  handlerUploadVideo env cfg req w =
    let video := {| video_id := videoId; userID := row_userID row;
                    videoURL := row_videoURL row |} in
    if negb (String.eqb (row_userID row) user) then
      (Thrown (UserForbiddenError
                 ("User: " +:+ user +:+ " is not authorized to update this video")),
       after_lookup cfg w token videoId)
    else checkedUpload env cfg req videoId video (after_lookup cfg w token videoId).
Proof.
  intros Hp Hne Htok Hjwt Hrow.
  unfold handlerUploadVideo. rewrite Hp.
  apply String.eqb_neq in Hne. rewrite Hne.
  async. cbn. rewrite Htok, Hjwt. cbn. rewrite Hrow. cbn.
  destruct (String.eqb (row_userID row) user); reflexivity.
Qed.

Lemma checkedUpload_file req videoId video w fd file :
  body req = Returned fd → JS.assoc "video" fd = Some (FormFile file) →
  checkedUpload env cfg req videoId video w =
    if file_size file >? MAX_UPLOAD_SIZE then
      (Thrown (BadRequestError "Video file exceeds the maximum allowed size of 1GB"),
       log EvFormData w)
    else if negb (String.eqb (file_type file) "video/mp4") then
      (Thrown (BadRequestError "Invalid file type. Only MP4 allowed."), log EvFormData w)
    else storeUpload env cfg videoId video file (log EvFormData w).
Proof.
  intros Hb Hf. unfold checkedUpload. rewrite bind_run. unfold formData.
  rewrite bind_run. unfold effect, settled. rewrite Hb. cbv beta iota. rewrite Hf.
  destruct (file_size file >? MAX_UPLOAD_SIZE); [reflexivity|].
  destruct (negb _); reflexivity.
Qed.

Lemma handler_run req w o w' :
  handlerUploadVideo env cfg req w = (o, w') →
  (∃ e evs, o = Thrown e ∧ db w' = db w ∧ bucket w' = bucket w ∧ files w' = files w ∧
            trace w' = trace w ++ evs ∧ forallb is_silent evs = true)
  ∨ (∃ videoId token row fd file,
       params_videoId req = Some videoId ∧ videoId ≠ "" ∧
       env_getBearerToken env (headers req) = Returned token ∧
       env_validateJWT env token (jwtSecret cfg) = Returned (row_userID row) ∧
       db w !! videoId = Some row ∧
       body req = Returned fd ∧ JS.assoc "video" fd = Some (FormFile file) ∧
       file_size file ≤ 2 ^ 30 ∧ file_type file = "video/mp4" ∧
       storeUpload env cfg videoId
         {| video_id := videoId; userID := row_userID row; videoURL := row_videoURL row |}
         file (log EvFormData (after_lookup cfg w token videoId)) = (o, w')).
Proof.
  intros Hr. unfold handlerUploadVideo in Hr.
  destruct (params_videoId req) as [videoId|] eqn:Hp; [|early Hr].
  destruct (String.eqb videoId "") eqn:Hne; [early Hr|].
  apply String.eqb_neq in Hne.
  rewrite bind_run in Hr. unfold getBearerToken in Hr. rewrite bind_run in Hr.
  unfold effect at 1, settled at 1 in Hr.
  destruct (env_getBearerToken env (headers req)) as [token|e] eqn:Htok; [|early Hr].
  rewrite bind_run in Hr. unfold validateJWT in Hr. rewrite bind_run in Hr.
  unfold effect at 1, settled at 1 in Hr.
  destruct (env_validateJWT env token (jwtSecret cfg)) as [user|e] eqn:Hjwt; [|early Hr].
  rewrite bind_run in Hr. unfold getVideo in Hr. rewrite bind_run in Hr.
  unfold effect at 1, read at 1 in Hr. cbn [db log] in Hr.
  destruct (db w !! videoId) as [row|] eqn:Hrow; cbn [fmap option_fmap option_map] in Hr;
    [|early Hr].
  cbn [userID] in Hr.
  destruct (String.eqb (row_userID row) user) eqn:Hu; cbn [negb] in Hr; [|early Hr].
  apply String.eqb_eq in Hu. subst user.
  unfold checkedUpload in Hr. rewrite bind_run in Hr. unfold formData in Hr.
  rewrite bind_run in Hr. unfold effect at 1, settled at 1 in Hr.
  destruct (body req) as [fd|e] eqn:Hb; [|early Hr].
  destruct (JS.assoc "video" fd) as [[s|file]|] eqn:Hf; [early Hr| |early Hr].
  destruct (file_size file >? MAX_UPLOAD_SIZE) eqn:Hs; [early Hr|].
  destruct (String.eqb (file_type file) "video/mp4") eqn:Ht; cbn [negb] in Hr; [|early Hr].
  apply String.eqb_eq in Ht. rewrite Z.gtb_ltb in Hs. apply Z.ltb_ge in Hs.
  rewrite MAX_UPLOAD_SIZE_eq in Hs.
  right. exists videoId, token, row, fd, file. by repeat split.
Qed.

Lemma handler_cases req w o w' :
  handlerUploadVideo env cfg req w = (o, w') →
  (∃ e evs, o = Thrown e ∧ db w' = db w ∧ bucket w' = bucket w ∧
            trace w' = trace w ++ evs ∧ forallb is_quiet evs = true)
  ∨ (∃ videoId token row fd file p1 cls p2,
       let temp := path_join "/tmp" (videoId +:+ ".mp4") in
       let proc := temp +:+ ".processed.mp4" in
       let key := cls +:+ "/" +:+ videoId +:+ ".mp4" in
       let video' := {| video_id := videoId; userID := row_userID row;
                        videoURL := Some (publicURL cfg key) |} in
       params_videoId req = Some videoId ∧ videoId ≠ "" ∧
       env_getBearerToken env (headers req) = Returned token ∧
       env_validateJWT env token (jwtSecret cfg) = Returned (row_userID row) ∧
       db w !! videoId = Some row ∧
       body req = Returned fd ∧ JS.assoc "video" fd = Some (FormFile file) ∧
       file_size file ≤ 2 ^ 30 ∧ file_type file = "video/mp4" ∧
       env_write env temp file = None ∧
       env_spawn env (ffprobe_argv temp) (<[temp := file_bytes file]> (files w))
         = Returned p1 ∧
       probeResult (exitCode p1) (stdout p1) (stderr p1) = Returned cls ∧
       env_spawn env (ffmpeg_argv temp proc) (files_after p1) = Returned p2 ∧
       exitCode p2 = 0 ∧
       env_s3 env key = None ∧
       o = cleanup_outcome env temp proc (respondWithJSON 200 video') ∧
       db w' = <[videoId := {| row_userID := row_userID row;
                               row_videoURL := Some (publicURL cfg key) |}]> (db w) ∧
       files w' = remove_unless_failing env proc
                    (remove_unless_failing env temp (files_after p2)) ∧
       bucket w' = <[key := {| s3_source := proc; s3_body := files_after p2 !! proc;
                                s3_contentType := "video/mp4" |}]> (bucket w) ∧
       trace w' = trace w ++
                  [EvGetBearerToken; EvValidateJWT token (jwtSecret cfg); EvGetVideo videoId;
                   EvFormData] ++
                  [EvBunWrite temp; EvSpawn (ffprobe_argv temp); EvSpawn (ffmpeg_argv temp proc);
                   EvUploadVideoToS3 key proc "video/mp4"] ++
                  [EvUpdateVideo video'; EvRm temp true; EvRm proc true]).
Proof.
  intros Hr. apply handler_run in Hr as [(e & evs & -> & Hd & Hb & _ & Ht & Hq)|Hr].
  { left. exists e, evs. repeat split; try done.
    clear Ht. induction evs as [|[] evs IH]; naive_solver. }
  destruct Hr as (videoId & token & row & fd & file & Hp & Hne & Htok & Hjwt & Hrow & Hb & Hf
                  & Hs & Ht & Hr).
  apply storeUpload_run in Hr
    as [(e & evs & -> & Hd & Hbk & Htr & Hq)
       |(p1 & cls & p2 & Hw & E1 & Ep & E2 & Ex & Es & -> & Hd & Hfs & Hbk & Htr)].
  { left. exists e, ([EvGetBearerToken; EvValidateJWT token (jwtSecret cfg); EvGetVideo videoId;
                      EvFormData; EvBunWrite (path_join "/tmp" (videoId +:+ ".mp4"))] ++ evs).
    repeat split; try done. rewrite Htr. cbn. by rewrite <- !app_assoc. }
  right. exists videoId, token, row, fd, file, p1, cls, p2. cbn zeta.
  repeat split; try done.
  - rewrite Hd. unfold store_row. cbn. by rewrite Hrow.
  - rewrite Htr. cbn. by rewrite <- !app_assoc.
Qed.

Lemma quiet_no_update evs v : forallb is_quiet evs = true → EvUpdateVideo v ∉ evs.
Proof.
  intros Hq Hin. apply list_elem_of_In in Hin.
  rewrite forallb_forall in Hq. by apply Hq in Hin.
Qed.

Lemma probeResult_classes exit out err cls :
  probeResult exit out err = Returned cls →
  cls = "landscape" ∨ cls = "portrait" ∨ cls = "other".
Proof.
  unfold probeResult, aspectOf, classify. intros Hr.
  repeat case_match; simplify_eq; auto.
Qed.

Lemma ToNumber_returns v :
  JS.no_primitive v = false → ∃ n, ToNumber v = Returned n.
Proof. intros Hv. destruct v; cbn [ToNumber]; rewrite ?Hv; eauto. Qed.

Lemma ToNumber_throws v : JS.no_primitive v = true → ToNumber v = Thrown TypeError.
Proof. intros Hv. destruct v; try discriminate Hv; cbn [ToNumber]; by rewrite Hv. Qed.

(** C1 (amended). The record's URL field is mutated only after the upload to
    object storage has completed successfully, and only when the
    authenticated identity equals the record's owning identity: if the store
    differs after the request, or the update was so much as issued, then the
    caller was authenticated as the owner of the row, the record update is preceded in the log by the upload
    call, storage accepted it, and the only change is the URL of that row.
    On a failing request the store is unchanged, unless the failure is the
    rejection of one of the two final temp-file removals, which are awaited
    after the record was written. *)
Theorem record_update_follows_upload req w o w' :
  handlerUploadVideo env cfg req w = (o, w') →
  (db w' ≠ db w ∨ (∃ u, EvUpdateVideo u ∈ issued w w') →
     ∃ videoId token row key path pre v post,
       params_videoId req = Some videoId ∧
       env_getBearerToken env (headers req) = Returned token ∧
       env_validateJWT env token (jwtSecret cfg) = Returned (row_userID row) ∧
       db w !! videoId = Some row ∧
       issued w w' = pre ++ EvUpdateVideo v :: post ∧
       (∀ u, EvUpdateVideo u ∉ pre) ∧
       EvUploadVideoToS3 key path "video/mp4" ∈ pre ∧
       env_s3 env key = None ∧
       is_Some (bucket w' !! key) ∧
       db w' = <[videoId := {| row_userID := row_userID row;
                               row_videoURL := Some (publicURL cfg key) |}]> (db w))
  ∧ (∀ e, o = Thrown e →
       db w' = db w
       ∨ ∃ temp proc pre,
           issued w w' = pre ++ [EvRm temp true; EvRm proc true] ∧
           (env_rm env temp = Some e ∨ env_rm env proc = Some e)).
Proof.
  intros Hr.
  apply handler_cases in Hr
    as [(e & evs & -> & Hd & Hb & Ht & Hq)
       |(videoId & token & row & fd & file & p1 & cls & p2 & Hp & Hne & Htok & Hjwt & Hrow & Hb & Hf
         & Hs & Hty & Hw & E1 & Ep & E2 & Ex & Es & Ho & Hd & Hfs & Hbk & Htr)].
  { split; [|intros ? _; by left].
    intros [Hn|[u Hu]]; [done|].
    rewrite (issued_app _ _ _ Ht) in Hu. by apply quiet_no_update in Hu. }
  set (temp := path_join "/tmp" (videoId +:+ ".mp4")) in *.
  set (proc := temp +:+ ".processed.mp4") in *.
  set (key := cls +:+ "/" +:+ videoId +:+ ".mp4") in *.
  apply issued_app in Htr. cbn [app] in Htr.
  split.
  - intros _.
    exists videoId, token, row, key, proc,
      [EvGetBearerToken; EvValidateJWT token (jwtSecret cfg); EvGetVideo videoId; EvFormData;
       EvBunWrite temp; EvSpawn (ffprobe_argv temp); EvSpawn (ffmpeg_argv temp proc);
       EvUploadVideoToS3 key proc "video/mp4"].
    eexists _, [EvRm temp true; EvRm proc true].
    repeat split; try done.
    + exact Htr.
    + intros u. by apply quiet_no_update.
    + rewrite !elem_of_cons. auto 10.
    + rewrite Hbk, lookup_insert_eq. eauto.
  - intros e He. right. exists temp, proc. eexists [_; _; _; _; _; _; _; _; _].
    split; [by rewrite Htr|].
    rewrite Ho in He. unfold cleanup_outcome in He.
    repeat case_match; simplify_eq; auto.
Qed.

Lemma removed_lookup (a b : string) (fs : gmap string Blob) :
  (env_rm env a = None →
   remove_unless_failing env b (remove_unless_failing env a fs) !! a = None)
  ∧ (env_rm env b = None →
     remove_unless_failing env b (remove_unless_failing env a fs) !! b = None).
Proof.
  unfold remove_unless_failing. split; intros ->.
  - destruct (env_rm env b); rewrite ?lookup_delete; repeat case_decide; done.
  - destruct (env_rm env a); rewrite ?lookup_delete; repeat case_decide; done.
Qed.

Lemma cleanup_outcome_returned temp proc resp :
  (∃ r, cleanup_outcome env temp proc resp = Returned r)
  ↔ env_rm env temp = None ∧ env_rm env proc = None.
Proof.
  unfold cleanup_outcome.
  destruct (env_rm env temp), (env_rm env proc); split; try (intros [r ?]; done);
    try (intros [? ?]; done); eauto.
Qed.

(** C3 (amended). A request that succeeds has reached the cleanup; once the
    record has been updated both removals are issued, whatever the other
    one does; each temp file whose removal does not fail is absent
    afterwards (so on the success path both are); a missing file is no
    failure, and the request succeeds exactly when neither removal fails:
    a failing removal is surfaced as the request's error. *)
Theorem cleanup_attempts_both_removals req w o w' :
  handlerUploadVideo env cfg req w = (o, w') →
  (∀ resp, o = Returned resp → ∃ v, EvUpdateVideo v ∈ issued w w')
  ∧ ((∃ v, EvUpdateVideo v ∈ issued w w') →
     ∃ videoId,
       let temp := path_join "/tmp" (videoId +:+ ".mp4") in
       let proc := temp +:+ ".processed.mp4" in
       params_videoId req = Some videoId ∧
       EvRm temp true ∈ issued w w' ∧ EvRm proc true ∈ issued w w' ∧
       (env_rm env temp = None → files w' !! temp = None) ∧
       (env_rm env proc = None → files w' !! proc = None) ∧
       ((∃ resp, o = Returned resp) ↔ env_rm env temp = None ∧ env_rm env proc = None) ∧
       (∀ e, env_rm env temp = Some e ∨ env_rm env proc = Some e → ∃ e', o = Thrown e')).
Proof.
  intros Hr.
  apply handler_cases in Hr
    as [(e & evs & -> & Hd & Hb & Ht & Hq)
       |(videoId & token & row & fd & file & p1 & cls & p2 & Hp & Hne & Htok & Hjwt & Hrow & Hb & Hf
         & Hs & Hty & Hw & E1 & Ep & E2 & Ex & Es & Ho & Hd & Hfs & Hbk & Htr)].
  { apply issued_app in Ht. rewrite Ht. split; [done|].
    intros [v Hv]. by apply quiet_no_update in Hv. }
  set (temp := path_join "/tmp" (videoId +:+ ".mp4")) in *.
  set (proc := temp +:+ ".processed.mp4") in *.
  apply issued_app in Htr. cbn [app] in Htr. rewrite Htr.
  split.
  { intros _ _. eexists. rewrite !elem_of_cons. auto 12. }
  intros _. exists videoId. cbn zeta. fold temp proc.
  destruct (removed_lookup temp proc (files_after p2)) as [Ha Hb'].
  rewrite Hfs, Ho.
  split_and!; try done.
  - rewrite !elem_of_cons. auto 12.
  - rewrite !elem_of_cons. auto 12.
  - apply cleanup_outcome_returned.
  - intros e He. unfold cleanup_outcome.
    destruct He as [-> | ->]; repeat case_match; eauto.
Qed.

(** C7. On every successful upload the storage key is
    "{classification}/{videoId}.mp4", where the classification is what the
    probe returned for the temp file, and the URL stored in the record and
    returned with status 200 is
    "https://{bucket}.s3.{region}.amazonaws.com/{classification}/{videoId}.mp4". *)
Theorem stored_under_classified_key req w resp w' :
  handlerUploadVideo env cfg req w = (Returned resp, w') →
  ∃ videoId classification probe fs,
    let temp := path_join "/tmp" (videoId +:+ ".mp4") in
    let key := classification +:+ "/" +:+ videoId +:+ ".mp4" in
    let url := "https://" +:+ s3Bucket cfg +:+ ".s3." +:+ s3Region cfg +:+ ".amazonaws.com/"
               +:+ classification +:+ "/" +:+ videoId +:+ ".mp4" in
    params_videoId req = Some videoId ∧
    env_spawn env (ffprobe_argv temp) fs = Returned probe ∧
    probeResult (exitCode probe) (stdout probe) (stderr probe) = Returned classification ∧
    (classification = "landscape" ∨ classification = "portrait" ∨ classification = "other") ∧
    EvUploadVideoToS3 key (temp +:+ ".processed.mp4") "video/mp4" ∈ issued w w' ∧
    (∃ obj, bucket w' !! key = Some obj ∧ s3_contentType obj = "video/mp4") ∧
    (∃ row, db w' !! videoId = Some row ∧ row_videoURL row = Some url) ∧
    status resp = 200 ∧
    video_id (payload resp) = videoId ∧
    videoURL (payload resp) = Some url.
Proof.
  intros Hr.
  apply handler_cases in Hr
    as [(e & evs & ? & _)
       |(videoId & token & row & fd & file & p1 & cls & p2 & Hp & Hne & Htok & Hjwt & Hrow & Hb & Hf
         & Hs & Hty & Hw & E1 & Ep & E2 & Ex & Es & Ho & Hd & Hfs & Hbk & Htr)]; [done|].
  set (temp := path_join "/tmp" (videoId +:+ ".mp4")) in *.
  apply issued_app in Htr. cbn [app] in Htr.
  exists videoId, cls, p1, (<[temp := file_bytes file]> (files w)). cbn zeta. fold temp.
  unfold cleanup_outcome in Ho. repeat case_match; simplify_eq.
  repeat split; try done.
  - eauto using probeResult_classes.
  - rewrite Htr, !elem_of_cons. auto 12.
  - eexists. rewrite Hbk, lookup_insert_eq. eauto.
  - eexists. rewrite Hd, lookup_insert_eq. eauto.
Qed.

Lemma storeUpload_writes_first videoId video file w o w' :
  storeUpload env cfg videoId video file w = (o, w') →
  ∃ evs, trace w' = trace w ++ EvBunWrite (path_join "/tmp" (videoId +:+ ".mp4")) :: evs.
Proof.
  intros Hr. apply storeUpload_run in Hr as [(e & evs & _ & _ & _ & Ht & _)|Hr]; [eauto|].
  destruct Hr as (p1 & cls & p2 & _ & _ & _ & _ & _ & _ & _ & _ & _ & _ & Ht).
  eexists. exact Ht.
Qed.

(** C4. The limit [1 << 30] is 2^30 bytes. For a request that reaches the
    size check, a declared size above 2^30 is rejected with BadRequest
    before any temp file write (the log holds the four reads only and the
    files are untouched); a size of at most 2^30 is accepted: the handler
    goes on to the media-type check and, for "video/mp4", to the temp-file
    write. *)
Theorem upload_size_limit req w videoId token row fd file :
  params_videoId req = Some videoId → videoId ≠ "" →
  env_getBearerToken env (headers req) = Returned token →
  env_validateJWT env token (jwtSecret cfg) = Returned (row_userID row) →
  db w !! videoId = Some row →
  body req = Returned fd → JS.assoc "video" fd = Some (FormFile file) →
  let checked :=
    {| db := db w; files := files w; bucket := bucket w;
       trace := trace w ++ [EvGetBearerToken; EvValidateJWT token (jwtSecret cfg);
                            EvGetVideo videoId; EvFormData] |} in
  let video := {| video_id := videoId; userID := row_userID row;
                  videoURL := row_videoURL row |} in
  MAX_UPLOAD_SIZE = 2 ^ 30
  ∧ (file_size file > 2 ^ 30 →
     handlerUploadVideo env cfg req w =
       (Thrown (BadRequestError "Video file exceeds the maximum allowed size of 1GB"), checked)
     ∧ files checked = files w
     ∧ ∀ path, EvBunWrite path ∉ issued w checked)
  ∧ (file_size file ≤ 2 ^ 30 →
     handlerUploadVideo env cfg req w =
       if String.eqb (file_type file) "video/mp4"
       then storeUpload env cfg videoId video file checked
       else (Thrown (BadRequestError "Invalid file type. Only MP4 allowed."), checked))
  ∧ (file_size file ≤ 2 ^ 30 → file_type file = "video/mp4" →
     EvBunWrite (path_join "/tmp" (videoId +:+ ".mp4"))
       ∈ issued w (handlerUploadVideo env cfg req w).2).
Proof.
  intros Hp Hne Htok Hjwt Hrow Hb Hf checked video.
  assert (Hc : log EvFormData (after_lookup cfg w token videoId) = checked).
  { unfold checked, after_lookup, log. cbn. by rewrite <- !app_assoc. }
  assert (Hrun := handler_authorized req w videoId token _ row Hp Hne Htok Hjwt Hrow).
  rewrite String.eqb_refl in Hrun. cbn [negb] in Hrun. cbv zeta in Hrun. fold video in Hrun.
  rewrite (checkedUpload_file _ _ _ _ _ _ Hb Hf), Hc, MAX_UPLOAD_SIZE_eq in Hrun.
  split_and!.
  - reflexivity.
  - intros Hs. rewrite Hrun. apply Z.gt_lt, Z.gtb_lt in Hs. rewrite Hs.
    split_and!; [done..|]. intros path Hin.
    rewrite (issued_app w checked _ eq_refl), !elem_of_cons, elem_of_nil in Hin.
    by destruct Hin as [?|[?|[?|[?|[]]]]].
  - intros Hs. rewrite Hrun.
    destruct (file_size file >? 2 ^ 30) eqn:E; [apply Z.gtb_lt in E; lia|].
    by destruct (String.eqb (file_type file) "video/mp4").
  - intros Hs Ht. rewrite Hrun.
    destruct (file_size file >? 2 ^ 30) eqn:E; [apply Z.gtb_lt in E; lia|].
    rewrite Ht. cbn [String.eqb Ascii.eqb Bool.eqb negb].
    destruct (storeUpload env cfg videoId video file checked) as [o w'] eqn:Hst.
    apply storeUpload_writes_first in Hst as [evs Hst]. cbn [snd].
    unfold checked in Hst. cbn [trace] in Hst. rewrite <- app_assoc in Hst.
    apply issued_app in Hst. rewrite Hst, !elem_of_app, !elem_of_cons. auto 10.
Qed.

(** C5. When the authenticated identity differs from the record's owner the
    handler fails with Forbidden, having only authenticated and read the
    record: no temp file is written, nothing is put in the bucket, and the
    store is unchanged. *)
Theorem forbidden_when_not_owner req w videoId token user row :
  params_videoId req = Some videoId → videoId ≠ "" →
  env_getBearerToken env (headers req) = Returned token →
  env_validateJWT env token (jwtSecret cfg) = Returned user →
  db w !! videoId = Some row →
  row_userID row ≠ user →
  ∃ w',
    handlerUploadVideo env cfg req w =
      (Thrown (UserForbiddenError
                 ("User: " +:+ user +:+ " is not authorized to update this video")), w')
    ∧ files w' = files w ∧ bucket w' = bucket w ∧ db w' = db w
    ∧ issued w w' = [EvGetBearerToken; EvValidateJWT token (jwtSecret cfg);
                     EvGetVideo videoId]
    ∧ forallb is_silent (issued w w') = true.
Proof.
  intros Hp Hne Htok Hjwt Hrow Hu.
  rewrite (handler_authorized req w videoId token user row Hp Hne Htok Hjwt Hrow).
  apply String.eqb_neq in Hu. rewrite Hu. cbn [negb].
  eexists. split; [reflexivity|].
  assert (Hi : issued w (after_lookup cfg w token videoId)
               = [EvGetBearerToken; EvValidateJWT token (jwtSecret cfg); EvGetVideo videoId]).
  { apply issued_app. unfold after_lookup, log. cbn. by rewrite <- !app_assoc. }
  rewrite Hi. by split_and!.
Qed.

(** C9. A request whose path parameter is the empty string is rejected with
    BadRequest exactly as one without the parameter, before any
    collaborator is called: the world, log included, is unchanged. *)
Theorem empty_video_id_rejected req w :
  params_videoId req = Some "" ∨ params_videoId req = None →
  handlerUploadVideo env cfg req w = (Thrown (BadRequestError "Invalid video ID"), w).
Proof.
  intros [Hp|Hp]; unfold handlerUploadVideo; rewrite Hp; reflexivity.
Qed.

Lemma getVideoAspectRatio_run filepath w p :
  env_spawn env (ffprobe_argv filepath) (files w) = Returned p →
  getVideoAspectRatio env filepath w =
    (probeResult (exitCode p) (stdout p) (stderr p),
     {| db := db w; files := files_after p; bucket := bucket w;
        trace := trace w ++ [EvSpawn (ffprobe_argv filepath)] |}).
Proof.
  intros E. unfold getVideoAspectRatio. rewrite bind_run, Bun_spawn_run, E. reflexivity.
Qed.

(** C6 (amended). When the probing subprocess exits non-zero the probe
    fails with an error whose message is "ffprobe error: " followed by the
    captured standard-error text, hence contains it; when it exits zero and
    its output parses to an object whose streams array is empty, the probe
    fails with the message "No video streams found". *)
Theorem probe_failure_messages filepath w p :
  env_spawn env (ffprobe_argv filepath) (files w) = Returned p →
  (exitCode p ≠ 0 →
     ∃ message,
       (getVideoAspectRatio env filepath w).1 = Thrown (Error message) ∧
       message = "ffprobe error: " +:+ stderr p ∧
       contains message (stderr p))
  ∧ (exitCode p = 0 →
     ∀ fields,
       JSON_parse (stdout p) = Some (JS.Obj fields) →
       JS.assoc "streams" fields = Some (JS.Arr []) →
       (getVideoAspectRatio env filepath w).1 = Thrown (Error "No video streams found")).
Proof.
  intros E. rewrite (getVideoAspectRatio_run _ _ _ E). cbn [fst]. unfold probeResult. split.
  - intros Hx. apply Z.eqb_neq in Hx. rewrite Hx. cbn [negb].
    eexists. split_and!; [done..|]. apply contains_suffix.
  - intros -> fields Hj Hs. cbn [Z.eqb negb]. rewrite Hj. cbn. by rewrite Hs.
Qed.

(** C10. When the probe exits zero and its output parses to an object with no
    "streams" field, the probe fails with Error "No video streams found",
    the very outcome of the empty-streams case, and not with a TypeError. *)
Theorem probe_without_streams_field filepath w p fields :
  env_spawn env (ffprobe_argv filepath) (files w) = Returned p →
  exitCode p = 0 →
  JSON_parse (stdout p) = Some (JS.Obj fields) →
  JS.assoc "streams" fields = None →
  (getVideoAspectRatio env filepath w).1 = Thrown (Error "No video streams found")
  ∧ ∀ text err fields0,
      JSON_parse text = Some (JS.Obj fields0) →
      JS.assoc "streams" fields0 = Some (JS.Arr []) →
      (getVideoAspectRatio env filepath w).1 = probeResult 0 text err.
Proof.
  intros E Hx Hj Hs. rewrite (getVideoAspectRatio_run _ _ _ E). cbn [fst].
  assert (Hr : probeResult (exitCode p) (stdout p) (stderr p)
               = Thrown (Error "No video streams found")).
  { unfold probeResult. rewrite Hx. cbn [Z.eqb negb]. rewrite Hj. cbn. by rewrite Hs. }
  split; [done|]. intros text err fields0 Hj0 Hs0. rewrite Hr.
  unfold probeResult. cbn [Z.eqb negb]. rewrite Hj0. cbn. by rewrite Hs0.
Qed.

(** C8. For every input path the transcoder is spawned once, as
    [ffmpeg -i <input> -movflags faststart -map_metadata 0 -codec copy -f mp4
    <output>] on the files as they are, where the output argument is the
    input path suffixed ".processed.mp4". The step touches neither the
    record store nor the bucket, and leaves the files exactly as the
    subprocess left them: when ffmpeg writes its output argument, the file is
    at the sibling path and every other file, the input included, is as it
    was. A non-zero exit fails with an error carrying the captured stderr
    text, and a zero exit returns exactly that output path. *)
Theorem fast_start_output_path inputFilePath w :
  let processedFilePath := inputFilePath +:+ ".processed.mp4" in
  let argv := ["ffmpeg"; "-i"; inputFilePath; "-movflags"; "faststart"; "-map_metadata"; "0";
               "-codec"; "copy"; "-f"; "mp4"; processedFilePath] in
  let r := processVideoForFastStart env inputFilePath w in
  last argv = Some processedFilePath
  ∧ issued w r.2 = [EvSpawn argv]
  ∧ db r.2 = db w ∧ bucket r.2 = bucket w
  ∧ (∀ e, env_spawn env argv (files w) = Thrown e → r.1 = Thrown e ∧ files r.2 = files w)
  ∧ ∀ p, env_spawn env argv (files w) = Returned p →
      files r.2 = files_after p
      ∧ (∀ written, files_after p = <[processedFilePath := written]> (files w) →
           files r.2 !! processedFilePath = Some written
           ∧ ∀ path, path ≠ processedFilePath → files r.2 !! path = files w !! path)
      ∧ (exitCode p ≠ 0 →
           r.1 = Thrown (Error ("FFmpeg error: " +:+ stderr p))
           ∧ contains ("FFmpeg error: " +:+ stderr p) (stderr p))
      ∧ (exitCode p = 0 → r.1 = Returned processedFilePath).
Proof.
  intros processedFilePath argv r. subst r. unfold processVideoForFastStart.
  fold processedFilePath. change (ffmpeg_argv inputFilePath processedFilePath) with argv.
  rewrite bind_run, Bun_spawn_run.
  split; [reflexivity|].
  destruct (env_spawn env argv (files w)) as [p|e] eqn:E.
  - set (w1 := set_files (λ _, files_after p) (log (EvSpawn argv) w)).
    assert (Hkept : ∀ written, files_after p = <[processedFilePath := written]> (files w) →
              files w1 !! processedFilePath = Some written
              ∧ ∀ path, path ≠ processedFilePath → files w1 !! path = files w !! path).
    { intros written Hf. unfold w1. cbn [files set_files]. rewrite Hf.
      split; [apply lookup_insert_eq|]. intros path Hne. by rewrite lookup_insert_ne. }
    destruct (exitCode p =? 0) eqn:Hx; cbn [negb].
    + apply Z.eqb_eq in Hx. unfold resolve. cbn [fst snd].
      split; [by apply issued_app|]. do 2 (split; [done|]). split; [done|].
      intros p' [= <-]. split; [done|]. split; [exact Hkept|]. split; [done|done].
    + apply Z.eqb_neq in Hx. unfold throw. cbn [fst snd].
      split; [by apply issued_app|]. do 2 (split; [done|]). split; [done|].
      intros p' [= <-]. split; [done|]. split; [exact Hkept|]. split; [|done].
      intros _. split; [done|]. apply contains_suffix.
  - cbn [fst snd]. split; [by apply issued_app|]. do 2 (split; [done|]).
    split; [by intros e' [= <-]|]. intros p' [=].
Qed.

End Properties.

(** ** Division of integer-valued doubles

    [SFdiv] on two positive integers below [2^52], reduced to one integer
    division with remainder: the quotient of [w * 2^t] by [h] for the
    exponent [t] that makes it a 53-bit mantissa, rounded to nearest even. *)

Section BinaryDivision.

Lemma digits2_pos_size p : digits2_pos p = Pos.size p.
Proof. induction p; simpl; congruence. Qed.

Lemma digits2_bounds p :
  2 ^ (Zpos (digits2_pos p) - 1) ≤ Zpos p < 2 ^ Zpos (digits2_pos p).
Proof.
  rewrite digits2_pos_size. split.
  - pose proof (Pos.size_le p) as Hle.
    apply Pos2Z.pos_le_pos in Hle. rewrite Pos2Z.inj_pow in Hle.
    change (Z.pos p~0) with (2 * Z.pos p) in Hle.
    replace (Zpos (Pos.size p)) with (Z.succ (Zpos (Pos.size p) - 1)) in Hle by lia.
    rewrite Z.pow_succ_r in Hle by lia. lia.
  - pose proof (Pos.size_gt p) as Hgt.
    apply Pos2Z.pos_lt_pos in Hgt. by rewrite Pos2Z.inj_pow in Hgt.
Qed.

Lemma digits2_eq p d : 2 ^ (d - 1) ≤ Zpos p < 2 ^ d → Zpos (digits2_pos p) = d.
Proof.
  intros [Hlo Hhi]. destruct (digits2_bounds p) as [Hlo' Hhi'].
  set (s := Zpos (digits2_pos p)) in *.
  assert (0 < s) by (unfold s; lia).
  assert (0 < d). { destruct (Z.lt_trichotomy d 0) as [?|[->|?]]; try done.
    - rewrite Z.pow_neg_r in Hhi by lia. lia.
    - simpl in Hhi. lia. }
  destruct (Z.lt_trichotomy s d) as [Hlt|[Heq|Hgt]]; [|done|].
  - assert (2 ^ s ≤ 2 ^ (d - 1)) by (apply Z.pow_le_mono_r; lia). lia.
  - assert (2 ^ d ≤ 2 ^ (s - 1)) by (apply Z.pow_le_mono_r; lia). lia.
Qed.

Lemma iter_xO p d : Zpos (Pos.iter xO p d) = Zpos p * 2 ^ Zpos d.
Proof.
  induction d as [|d IH] using Pos.peano_ind.
  - simpl. lia.
  - rewrite Pos.iter_succ, Pos2Z.inj_xO, IH, Pos2Z.inj_succ, Z.pow_succ_r by lia. lia.
Qed.

Lemma loc_of_shr_record_of_loc m l :
  loc_of_shr_record (shr_record_of_loc m l) = l.
Proof. by destruct l as [|[]]. Qed.

Lemma shr_m_record_of_loc m l : shr_m (shr_record_of_loc m l) = m.
Proof. by destruct l as [|[]]. Qed.

Lemma round_nearest_even_cases m l :
  round_nearest_even m l = m ∨ round_nearest_even m l = m + 1.
Proof. destruct l as [|[]]; simpl; auto. destruct (Z.even m); auto. Qed.

Lemma shr_fexp_53 p e l :
  2 ^ 52 ≤ Zpos p < 2 ^ 53 → -1074 ≤ e →
  shr_fexp JS.prec JS.emax (Zpos p) e l = (shr_record_of_loc (Zpos p) l, e).
Proof.
  intros Hp He. unfold shr_fexp. cbn [Zdigits2]. rewrite (digits2_eq p 53) by done.
  unfold fexp, emin, JS.prec, JS.emax.
  replace (Z.max (53 + e - 53) (3 - 1024 - 53) - e) with 0 by lia. reflexivity.
Qed.

Lemma shr_fexp_54 p e l :
  2 ^ 53 ≤ Zpos p < 2 ^ 54 → -1074 ≤ e →
  shr_fexp JS.prec JS.emax (Zpos p) e l = (shr_1 (shr_record_of_loc (Zpos p) l), e + 1).
Proof.
  intros Hp He. unfold shr_fexp. cbn [Zdigits2]. rewrite (digits2_eq p 54) by done.
  unfold fexp, emin, JS.prec, JS.emax.
  replace (Z.max (54 + e - 53) (3 - 1024 - 53) - e) with 1 by lia. reflexivity.
Qed.

Lemma round_tail m e :
  2 ^ 52 ≤ m ≤ 2 ^ 53 → -1074 ≤ e ≤ 970 →
  (let '(mrs, e') := shr_fexp JS.prec JS.emax m e loc_Exact in
   match shr_m mrs with
   | Z0 => S754_zero false
   | Zpos m' =>
       if e' <=? JS.emax - JS.prec then S754_finite false m' e' else S754_infinity false
   | Zneg _ => S754_nan
   end) = normal m e.
Proof.
  intros Hm He. destruct m as [|p|p]; try lia. unfold normal.
  destruct (Z.ltb_spec (Zpos p) (2 ^ 53)) as [Hlt|Hge].
  - rewrite shr_fexp_53 by (lia || done). cbn [shr_record_of_loc shr_m].
    destruct (Z.leb_spec e (JS.emax - JS.prec)); [done|unfold JS.emax, JS.prec in *; lia].
  - assert (Hc : Zpos p = 2 ^ 53) by lia. rewrite Hc.
    change (2 ^ 53) with (Zpos (Pos.pow 2 53)).
    rewrite shr_fexp_54 by (done || lia).
    destruct (Z.leb_spec (e + 1) (JS.emax - JS.prec)); [done|unfold JS.emax, JS.prec in *; lia].
Qed.

Lemma binary_round_aux_53 q e l :
  2 ^ 52 ≤ q < 2 ^ 53 → -1074 ≤ e ≤ 970 →
  binary_round_aux JS.prec JS.emax false q e l = normal (round_nearest_even q l) e.
Proof.
  intros Hq He. destruct q as [|p|p]; try lia.
  unfold binary_round_aux. rewrite shr_fexp_53 by (done || lia).
  rewrite loc_of_shr_record_of_loc, shr_m_record_of_loc.
  apply round_tail; [|done].
  destruct (round_nearest_even_cases (Zpos p) l) as [-> | ->]; lia.
Qed.

Lemma shr_1_of_loc p l :
  shr_m (shr_1 (shr_record_of_loc (Zpos p) l)) = Zpos p / 2
  ∧ loc_of_shr_record (shr_1 (shr_record_of_loc (Zpos p) l)) = half_loc (Zpos p) l.
Proof.
  rewrite <- Z.div2_div. by destruct p, l as [|[]].
Qed.

Lemma binary_round_aux_54 q e l :
  2 ^ 53 ≤ q < 2 ^ 54 → -1074 ≤ e ≤ 969 →
  binary_round_aux JS.prec JS.emax false q e l
  = normal (round_nearest_even (q / 2) (half_loc q l)) (e + 1).
Proof.
  intros Hq He. destruct q as [|p|p]; try lia.
  unfold binary_round_aux. rewrite shr_fexp_54 by (done || lia).
  destruct (shr_1_of_loc p l) as [-> ->].
  assert (2 ^ 52 ≤ Zpos p / 2 < 2 ^ 53).
  { split; [apply Z.div_le_lower_bound|apply Z.div_lt_upper_bound]; lia. }
  apply round_tail; [|lia].
  destruct (round_nearest_even_cases (Zpos p / 2) (half_loc (Zpos p) l)) as [-> | ->]; lia.
Qed.

Lemma of_Z_normal n k :
  0 ≤ k → 2 ^ 52 ≤ n * 2 ^ k < 2 ^ 53 →
  JS.of_Z n = S754_finite false (Z.to_pos (n * 2 ^ k)) (- k).
Proof.
  intros Hk Hn.
  assert (Hpow : 0 < 2 ^ k) by (apply Z.pow_pos_nonneg; lia).
  destruct n as [|p|p]; try lia.
  assert (Hk53 : k < 53).
  { destruct (Z.lt_ge_cases k 53) as [|Hge]; [done|].
    assert (2 ^ 53 ≤ 2 ^ k) by (apply Z.pow_le_mono_r; lia). nia. }
  assert (Hd : Zpos (digits2_pos p) = 53 - k).
  { apply digits2_eq.
    assert (E1 : 2 ^ 53 = 2 ^ (53 - k) * 2 ^ k) by (rewrite <- Z.pow_add_r by lia; f_equal; lia).
    assert (E2 : 2 ^ 52 = 2 ^ (53 - k - 1) * 2 ^ k)
      by (rewrite <- Z.pow_add_r by lia; f_equal; lia).
    split; nia. }
  unfold JS.of_Z, binary_normalize, binary_round.
  rewrite Hd. unfold fexp, emin, JS.prec, JS.emax.
  replace (Z.max (53 - k + 0 - 53) (3 - 1024 - 53)) with (- k) by lia.
  unfold shl_align. replace (- k - 0) with (- k) by lia.
  change (binary_round_aux 53 1024) with (binary_round_aux JS.prec JS.emax).
  destruct k as [|k|k]; try lia.
  - change (- 0) with 0. cbv beta iota zeta. rewrite Z.mul_1_r in *.
    rewrite binary_round_aux_53 by (done || lia). cbn [round_nearest_even].
    unfold normal. destruct (Z.ltb_spec (Zpos p) (2 ^ 53)); [done|lia].
  - change (- Zpos k) with (Zneg k). cbv beta iota zeta.
    rewrite iter_xO.
    rewrite binary_round_aux_53 by (done || lia). cbn [round_nearest_even].
    unfold normal. destruct (Z.ltb_spec (Zpos p * 2 ^ Zpos k) (2 ^ 53)); [done|lia].
Qed.

Lemma SFdiv_normal mx ex my ey :
  2 ^ 52 ≤ Zpos mx < 2 ^ 53 → 2 ^ 52 ≤ Zpos my < 2 ^ 53 →
  -1000 ≤ ex - ey ≤ 1000 →
  JS.div (S754_finite false mx ex) (S754_finite false my ey)
  = binary_round_aux JS.prec JS.emax false ((Zpos mx * 2 ^ 53) / Zpos my) (ex - ey - 53)
      (new_location (Zpos my) ((Zpos mx * 2 ^ 53) mod Zpos my)).
Proof.
  intros Hx Hy He. unfold JS.div, SFdiv, SFdiv_core_binary. cbn [Zdigits2 xorb].
  rewrite (digits2_eq mx 53), (digits2_eq my 53) by done.
  unfold fexp, emin, JS.prec, JS.emax.
  replace (Z.min (Z.max (53 + ex - (53 + ey) - 53) (3 - 1024 - 53)) (ex - ey))
    with (ex - ey - 53) by lia.
  replace (ex - ey - (ex - ey - 53)) with 53 by lia.
  rewrite Z.shiftl_mul_pow2 by lia.
  change (binary_round_aux 53 1024) with (binary_round_aux JS.prec JS.emax).
  unfold Z.div, Z.modulo.
  by destruct (Z.div_eucl (Zpos mx * 2 ^ 53) (Zpos my)) as [q r].
Qed.

Lemma new_location_scaled rem h c :
  0 < h → 0 < c → Z.even c = true →
  new_location (h * c) (rem * c) = loc_of rem h.
Proof.
  intros Hh Hc Hev. unfold new_location, new_location_even, loc_of.
  rewrite Z.even_mul, Hev, orb_true_r.
  destruct (Z.eqb_spec rem 0) as [->|Hne].
  - reflexivity.
  - destruct (Z.eqb_spec (rem * c) 0) as [E|_]; [nia|].
    f_equal. rewrite Z.mul_assoc. symmetry. apply Zmult_compare_compat_r. lia.
Qed.

Lemma half_loc_double X h :
  0 < h → 0 ≤ X →
  half_loc (2 * X / h) (loc_of ((2 * X) mod h) h) = loc_of (X mod h) h
  ∧ 2 * X / h / 2 = X / h.
Proof.
  intros Hh HX.
  pose proof (Z.div_mod X h ltac:(lia)) as E.
  pose proof (Z.mod_pos_bound X h Hh) as Hr.
  set (q := X / h) in *. set (r := X mod h) in *.
  destruct (Z.lt_ge_cases (2 * r) h) as [Hlt|Hge].
  - assert (Hq : 2 * X / h = 2 * q) by (symmetry; apply (Z.div_unique _ _ _ (2 * r)); lia).
    assert (Hm : (2 * X) mod h = 2 * r) by (symmetry; apply (Z.mod_unique _ _ (2 * q)); lia).
    rewrite Hq, Hm. split; [|rewrite Z.mul_comm; apply Z.div_mul; lia].
    unfold half_loc, loc_of. rewrite Z.odd_mul. cbn [Z.odd andb].
    destruct (Z.eqb_spec r 0) as [->|Hne]; [reflexivity|].
    destruct (Z.eqb_spec (2 * r) 0); [lia|].
    f_equal. symmetry. by apply Z.compare_lt_iff.
  - assert (Hq : 2 * X / h = 2 * q + 1)
      by (symmetry; apply (Z.div_unique _ _ _ (2 * r - h)); lia).
    assert (Hm : (2 * X) mod h = 2 * r - h)
      by (symmetry; apply (Z.mod_unique _ _ (2 * q + 1)); lia).
    rewrite Hq, Hm. split.
    2:{ symmetry. apply (Z.div_unique _ _ _ 1); lia. }
    unfold half_loc, loc_of.
    replace (Z.odd (2 * q + 1)) with true
      by (rewrite Z.add_comm, Z.odd_add_mul_2; reflexivity).
    destruct (Z.eqb_spec r 0) as [->|Hne]; [lia|].
    destruct (Z.eqb_spec (2 * r - h) 0) as [E0|E0].
    + f_equal. symmetry. apply Z.compare_eq_iff. lia.
    + f_equal. symmetry. apply Z.compare_gt_iff. lia.
Qed.

Lemma normalize_shift n :
  0 < n < 2 ^ 52 → ∃ k, 1 ≤ k ≤ 52 ∧ 2 ^ 52 ≤ n * 2 ^ k < 2 ^ 53.
Proof.
  intros Hn. exists (52 - Z.log2 n).
  pose proof (Z.log2_spec n ltac:(lia)) as [Hlo Hhi].
  pose proof (Z.log2_nonneg n) as H0.
  assert (Hlt : Z.log2 n < 52) by (apply Z.log2_lt_pow2; lia).
  assert (E1 : 2 ^ 52 = 2 ^ Z.log2 n * 2 ^ (52 - Z.log2 n))
    by (rewrite <- Z.pow_add_r by lia; f_equal; lia).
  assert (E2 : 2 ^ 53 = 2 ^ Z.succ (Z.log2 n) * 2 ^ (52 - Z.log2 n))
    by (rewrite <- Z.pow_add_r by lia; f_equal; lia).
  assert (0 < 2 ^ (52 - Z.log2 n)) by (apply Z.pow_pos_nonneg; lia).
  split; [lia|]. split; nia.
Qed.

Lemma div_of_Z w h :
  0 < w < 2 ^ 52 → 0 < h < 2 ^ 52 →
  ∃ t, 0 ≤ t ≤ 105 ∧ 2 ^ 52 * h ≤ w * 2 ^ t < 2 ^ 53 * h ∧
       JS.div (JS.of_Z w) (JS.of_Z h)
       = normal (round_nearest_even (w * 2 ^ t / h) (loc_of ((w * 2 ^ t) mod h) h)) (- t).
Proof.
  intros Hw Hh.
  destruct (normalize_shift w Hw) as (kw & Hkw & Hmw).
  destruct (normalize_shift h Hh) as (kh & Hkh & Hmh).
  rewrite (of_Z_normal w kw), (of_Z_normal h kh) by (lia || done).
  rewrite SFdiv_normal by (rewrite ?Z2Pos.id by lia; lia).
  rewrite !Z2Pos.id by lia.
  assert (Hc : 0 < 2 ^ kh) by (apply Z.pow_pos_nonneg; lia).
  assert (Hev : Z.even (2 ^ kh) = true) by (rewrite Z.even_pow by lia; reflexivity).
  destruct (Z.lt_ge_cases (w * 2 ^ kw) (h * 2 ^ kh)) as [Hlt|Hge].
  - exists (kw + 53 - kh).
    assert (HP : 0 < 2 ^ (kw + 53 - kh)) by (apply Z.pow_pos_nonneg; lia).
    assert (E : w * 2 ^ kw * 2 ^ 53 = w * 2 ^ (kw + 53 - kh) * 2 ^ kh).
    { rewrite <- !Z.mul_assoc, <- !Z.pow_add_r by lia. do 2 f_equal. lia. }
    set (X := w * 2 ^ (kw + 53 - kh)) in *.
    assert (HX : 2 ^ 52 * h ≤ X < 2 ^ 53 * h) by (split; nia).
    split; [lia|]. split; [done|].
    rewrite E, Z.div_mul_cancel_r, Z.mul_mod_distr_r by lia.
    rewrite new_location_scaled by (lia || done).
    rewrite binary_round_aux_53.
    + f_equal. lia.
    + split; [apply Z.div_le_lower_bound|apply Z.div_lt_upper_bound]; lia.
    + lia.
  - exists (kw + 52 - kh).
    assert (HP : 0 < 2 ^ (kw + 52 - kh)) by (apply Z.pow_pos_nonneg; lia).
    assert (E : w * 2 ^ kw * 2 ^ 53 = 2 * (w * 2 ^ (kw + 52 - kh)) * 2 ^ kh).
    { replace (2 * (w * 2 ^ (kw + 52 - kh))) with (w * 2 ^ Z.succ (kw + 52 - kh))
        by (rewrite Z.pow_succ_r by lia; lia).
      rewrite <- !Z.mul_assoc, <- !Z.pow_add_r by lia. do 2 f_equal. lia. }
    set (X := w * 2 ^ (kw + 52 - kh)) in *.
    assert (HX : 2 ^ 52 * h ≤ X < 2 ^ 53 * h) by (split; nia).
    split; [lia|]. split; [done|].
    rewrite E, Z.div_mul_cancel_r, Z.mul_mod_distr_r by lia.
    rewrite new_location_scaled by (lia || done).
    destruct (half_loc_double X h) as [Hl Hq]; [lia..|].
    rewrite binary_round_aux_54.
    + rewrite Hl, Hq. f_equal. lia.
    + split; [apply Z.div_le_lower_bound|apply Z.div_lt_upper_bound]; lia.
    + lia.
Qed.

Lemma SFltb_finite m1 e1 m2 e2 :
  SFltb (S754_finite false m1 e1) (S754_finite false m2 e2) = true
  ↔ e1 < e2 ∨ (e1 = e2 ∧ Zpos m1 < Zpos m2).
Proof.
  unfold SFltb, SFcompare.
  destruct (Z.compare_spec e1 e2) as [->|?|?].
  - change (Pos.compare_cont Eq m1 m2) with (Zpos m1 ?= Zpos m2).
    destruct (Z.compare_spec (Zpos m1) (Zpos m2)); split; try done; try lia.
  - split; [lia|done].
  - split; [done|lia].
Qed.

Lemma gt_normal M E m e :
  2 ^ 52 ≤ m ≤ 2 ^ 53 → 2 ^ 52 ≤ Zpos M < 2 ^ 53 →
  SFltb (S754_finite false M E) (normal m e) = true ↔ E < e ∨ (E = e ∧ Zpos M < m).
Proof.
  intros Hm HM. unfold normal. destruct (Z.ltb_spec m (2 ^ 53)).
  - rewrite SFltb_finite, Z2Pos.id by lia. done.
  - rewrite SFltb_finite, Z2Pos.id by lia. lia.
Qed.

Lemma lt_normal M E m e :
  2 ^ 52 ≤ m ≤ 2 ^ 53 → 2 ^ 52 < Zpos M < 2 ^ 53 →
  SFltb (normal m e) (S754_finite false M E) = true ↔ e < E ∨ (e = E ∧ m < Zpos M).
Proof.
  intros Hm HM. unfold normal. destruct (Z.ltb_spec m (2 ^ 53)).
  - rewrite SFltb_finite, Z2Pos.id by lia. done.
  - rewrite SFltb_finite, Z2Pos.id by lia. lia.
Qed.

Lemma rounded_cases q rem h :
  0 ≤ rem < h →
  (round_nearest_even q (loc_of rem h) = q ∧ 2 * rem ≤ h)
  ∨ (round_nearest_even q (loc_of rem h) = q + 1 ∧ h ≤ 2 * rem).
Proof.
  intros Hr. unfold loc_of. destruct (Z.eqb_spec rem 0) as [->|Hne]; [left; simpl; lia|].
  destruct (Z.compare_spec (2 * rem) h); simpl.
  - destruct (Z.even q); [left|right]; lia.
  - left; lia.
  - right; lia.
Qed.

(** The quotient of two positive integers below [2^52], as the handler's
    division computes it: a mantissa [m] and an exponent [- t]. *)
Lemma div_of_Z_rounded w h :
  0 < w < 2 ^ 52 → 0 < h < 2 ^ 52 →
  ∃ t q rem m,
    0 ≤ t ∧ w * 2 ^ t = h * q + rem ∧ 0 ≤ rem < h ∧ 2 ^ 52 ≤ q < 2 ^ 53 ∧
    ((m = q ∧ 2 * rem ≤ h) ∨ (m = q + 1 ∧ h ≤ 2 * rem)) ∧
    JS.div (JS.of_Z w) (JS.of_Z h) = normal m (- t).
Proof.
  intros Hw Hh. destruct (div_of_Z w h Hw Hh) as (t & Ht & HX & ->).
  exists t, (w * 2 ^ t / h), ((w * 2 ^ t) mod h),
    (round_nearest_even (w * 2 ^ t / h) (loc_of ((w * 2 ^ t) mod h) h)).
  pose proof (Z.mod_pos_bound (w * 2 ^ t) h ltac:(lia)).
  split_and!; try done; try lia.
  - apply Z.div_mod. lia.
  - apply Z.div_le_lower_bound; lia.
  - apply Z.div_lt_upper_bound; lia.
  - by apply rounded_cases.
Qed.

Lemma pow2_lt t T : 0 ≤ t < T → 0 < 2 ^ t ∧ 2 * 2 ^ t ≤ 2 ^ T.
Proof.
  intros Ht. split; [apply Z.pow_pos_nonneg; lia|].
  rewrite <- Z.pow_succ_r by lia. apply Z.pow_le_mono_r; lia.
Qed.

Lemma gt_1_7 w h :
  0 < w < 2 ^ 48 → 0 < h < 2 ^ 48 →
  SFltb JS.lit_1_7 (JS.div (JS.of_Z w) (JS.of_Z h)) = true ↔ 17 * h < 10 * w.
Proof.
  intros Hw Hh.
  destruct (div_of_Z_rounded w h) as (t & q & rem & m & Ht & HX & Hrem & Hq & Hm & ->);
    [lia..|].
  unfold JS.lit_1_7. rewrite gt_normal by lia.
  destruct (Z.lt_trichotomy t 52) as [Hlt|[->|Hgt]].
  - destruct (pow2_lt t 52) as [HP HP']; [lia|].
    split; [intros _|intros _; lia]. nia.
  - split.
    + intros [?|[_ HM]]; [lia|]. nia.
    + intros Hr. right. split; [done|]. nia.
  - destruct (pow2_lt 52 t) as [HP HP']; [lia|].
    split; [intros [?|[? _]]; lia|]. intros Hr. exfalso. nia.
Qed.

Lemma lt_1_8 w h :
  0 < w < 2 ^ 48 → 0 < h < 2 ^ 48 →
  SFltb (JS.div (JS.of_Z w) (JS.of_Z h)) JS.lit_1_8 = true ↔ 10 * w < 18 * h.
Proof.
  intros Hw Hh.
  destruct (div_of_Z_rounded w h) as (t & q & rem & m & Ht & HX & Hrem & Hq & Hm & ->);
    [lia..|].
  unfold JS.lit_1_8. rewrite lt_normal by lia.
  destruct (Z.lt_trichotomy t 52) as [Hlt|[->|Hgt]].
  - destruct (pow2_lt t 52) as [HP HP']; [lia|].
    split; [intros [?|[? _]]; lia|]. intros Hr. exfalso. nia.
  - split.
    + intros [?|[_ HM]]; [lia|]. nia.
    + intros Hr. right. split; [done|]. nia.
  - destruct (pow2_lt 52 t) as [HP HP']; [lia|].
    split; [intros _|intros _; lia]. nia.
Qed.

Lemma gt_0_5 w h :
  0 < w < 2 ^ 48 → 0 < h < 2 ^ 48 →
  SFltb JS.lit_0_5 (JS.div (JS.of_Z w) (JS.of_Z h)) = true ↔ 5 * h < 10 * w.
Proof.
  intros Hw Hh.
  destruct (div_of_Z_rounded w h) as (t & q & rem & m & Ht & HX & Hrem & Hq & Hm & ->);
    [lia..|].
  unfold JS.lit_0_5. rewrite gt_normal by lia.
  destruct (Z.lt_trichotomy t 53) as [Hlt|[->|Hgt]].
  - destruct (pow2_lt t 53) as [HP HP']; [lia|].
    split; [intros _|intros _; lia]. nia.
  - split.
    + intros [?|[_ HM]]; [lia|]. nia.
    + intros Hr. right. split; [done|]. nia.
  - destruct (pow2_lt 53 t) as [HP HP']; [lia|].
    split; [intros [?|[? _]]; lia|]. intros Hr. exfalso. nia.
Qed.

Lemma lt_0_6 w h :
  0 < w < 2 ^ 48 → 0 < h < 2 ^ 48 →
  SFltb (JS.div (JS.of_Z w) (JS.of_Z h)) JS.lit_0_6 = true ↔ 10 * w < 6 * h.
Proof.
  intros Hw Hh.
  destruct (div_of_Z_rounded w h) as (t & q & rem & m & Ht & HX & Hrem & Hq & Hm & ->);
    [lia..|].
  unfold JS.lit_0_6. rewrite lt_normal by lia.
  destruct (Z.lt_trichotomy t 53) as [Hlt|[->|Hgt]].
  - destruct (pow2_lt t 53) as [HP HP']; [lia|].
    split; [intros [?|[? _]]; lia|]. intros Hr. exfalso. nia.
  - split.
    + intros [?|[_ HM]]; [lia|]. nia.
    + intros Hr. right. split; [done|]. nia.
  - destruct (pow2_lt 53 t) as [HP HP']; [lia|].
    split; [intros _|intros _; lia]. nia.
Qed.

Lemma classify_integers (w h : Z) :
  0 ≤ w < 2 ^ 48 → 0 ≤ h < 2 ^ 48 →
  (classify (JS.div (JS.of_Z w) (JS.of_Z h)) = "landscape" ↔ 17 * h < 10 * w < 18 * h)
  ∧ (classify (JS.div (JS.of_Z w) (JS.of_Z h)) = "portrait" ↔ 5 * h < 10 * w < 6 * h).
Proof.
  intros Hw Hh.
  destruct (Z.eq_dec h 0) as [->|Hh0].
  { destruct w as [|p|p]; try lia.
    - split; (split; [intros E; vm_compute in E; discriminate|lia]).
    - destruct (normalize_shift (Zpos p)) as (k & Hk & Hp); [lia|].
      rewrite (of_Z_normal (Zpos p) k) by (lia || done).
      split; (split; [intros E; discriminate E|lia]). }
  destruct (Z.eq_dec w 0) as [->|Hw0].
  { destruct (normalize_shift h) as (k & Hk & Hp); [lia|].
    rewrite (of_Z_normal h k) by (lia || done).
    split; (split; [intros E; discriminate E|lia]). }
  pose proof (gt_1_7 w h ltac:(lia) ltac:(lia)) as G17.
  pose proof (lt_1_8 w h ltac:(lia) ltac:(lia)) as L18.
  pose proof (gt_0_5 w h ltac:(lia) ltac:(lia)) as G05.
  pose proof (lt_0_6 w h ltac:(lia) ltac:(lia)) as L06.
  unfold classify, JS.gt, JS.lt.
  destruct (SFltb JS.lit_1_7 _), (SFltb _ JS.lit_1_8), (SFltb JS.lit_0_5 _),
    (SFltb _ JS.lit_0_6); cbn [andb]; split; split; try done; intuition lia.
Qed.

End BinaryDivision.

Section Classification.
Context `{Runtime}.

Lemma intervals_disjoint r :
  JS.lt r JS.lit_0_6 = true → JS.gt r JS.lit_1_7 = true → False.
Proof.
  unfold JS.lt, JS.gt, SFltb, SFcompare, JS.lit_0_6, JS.lit_1_7.
  destruct r as [[]|[]| |[] m e]; try discriminate.
  destruct (Z.compare_spec e (-53)), (Z.compare_spec (-52) e); try discriminate; lia.
Qed.

Lemma classify_three r :
  classify r = "landscape" ∨ classify r = "portrait" ∨ classify r = "other".
Proof. unfold classify. repeat case_match; auto. Qed.

(** C2. Aspect classification is a function of (width, height) alone: for
    operands that convert to numbers (a [TypeError] otherwise) it is
    the class of the binary64 quotient width/height, which is "landscape"
    iff the quotient lies strictly between the doubles 1.7 and 1.8,
    "portrait" iff it lies strictly between 0.5 and 0.6, and "other"
    otherwise. For integer dimensions below 2^48 the rounding of the
    quotient never crosses a bound, so the class is decided by the exact
    ratio: "landscape" iff 1.7 < w/h < 1.8, "portrait" iff 0.5 < w/h < 0.6,
    "other" otherwise, and a ratio of exactly 1.7 or 1.8 is "other". In
    particular 1920x1080 is "landscape", 1080x1920 "portrait" and
    1000x1000 "other". *)
Theorem aspect_classification :
  (∀ width height,
     JS.no_primitive width = false → JS.no_primitive height = false →
     ∃ w h, ToNumber width = Returned w ∧ ToNumber height = Returned h
            ∧ aspectOf width height = Returned (classify (JS.div w h)))
  ∧ (∀ width height,
       JS.no_primitive width || JS.no_primitive height = true →
       aspectOf width height = Thrown TypeError)
  ∧ (∀ r, classify r = "landscape"
          ↔ JS.gt r JS.lit_1_7 = true ∧ JS.lt r JS.lit_1_8 = true)
  ∧ (∀ r, classify r = "portrait"
          ↔ JS.gt r JS.lit_0_5 = true ∧ JS.lt r JS.lit_0_6 = true)
  ∧ (∀ r, classify r = "other"
          ↔ ¬ (JS.gt r JS.lit_1_7 = true ∧ JS.lt r JS.lit_1_8 = true)
            ∧ ¬ (JS.gt r JS.lit_0_5 = true ∧ JS.lt r JS.lit_0_6 = true))
  ∧ (∀ w h : Z,
       0 ≤ w < 2 ^ 48 → 0 ≤ h < 2 ^ 48 →
       let aspect := aspectOf (JS.Num (JS.of_Z w)) (JS.Num (JS.of_Z h)) in
       (aspect = Returned "landscape" ↔ 17 * h < 10 * w < 18 * h)
       ∧ (aspect = Returned "portrait" ↔ 5 * h < 10 * w < 6 * h)
       ∧ (aspect = Returned "other"
          ↔ ¬ (17 * h < 10 * w < 18 * h) ∧ ¬ (5 * h < 10 * w < 6 * h))
       ∧ (10 * w = 17 * h ∨ 10 * w = 18 * h → aspect = Returned "other"))
  ∧ aspectOf (JS.Num (JS.of_Z 1920)) (JS.Num (JS.of_Z 1080)) = Returned "landscape"
  ∧ aspectOf (JS.Num (JS.of_Z 1080)) (JS.Num (JS.of_Z 1920)) = Returned "portrait"
  ∧ aspectOf (JS.Num (JS.of_Z 1000)) (JS.Num (JS.of_Z 1000)) = Returned "other"
  ∧ JS.div (JS.of_Z 17) (JS.of_Z 10) = JS.lit_1_7
  ∧ JS.div (JS.of_Z 18) (JS.of_Z 10) = JS.lit_1_8
  ∧ classify JS.lit_1_7 = "other"
  ∧ classify JS.lit_1_8 = "other".
Proof.
  split.
  { intros width height Hw Hh.
    destruct (ToNumber_returns _ Hw) as [w Ew], (ToNumber_returns _ Hh) as [h Eh].
    exists w, h. unfold aspectOf. by rewrite Ew, Eh. }
  split.
  { intros width height Hv. unfold aspectOf.
    destruct (JS.no_primitive width) eqn:Ew.
    - by rewrite (ToNumber_throws _ Ew).
    - destruct (ToNumber_returns _ Ew) as [n ->]. by rewrite (ToNumber_throws _ Hv). }
  split; [|split; [|split; [|split]]].
  - intros r. unfold classify. split.
    + repeat case_match; try discriminate. intros _. by apply andb_true_iff.
    + intros [-> ->]. reflexivity.
  - intros r. unfold classify. split.
    + repeat case_match; try discriminate. intros _. by apply andb_true_iff.
    + intros [H1 H2]. rewrite H1, H2.
      destruct (JS.gt r JS.lit_1_7) eqn:E; [by destruct (intervals_disjoint r)|].
      reflexivity.
  - intros r. unfold classify. split.
    + repeat case_match; try discriminate. intros _.
      split; intros [? ?]; [destruct (JS.gt r JS.lit_1_7), (JS.lt r JS.lit_1_8)
                           |destruct (JS.gt r JS.lit_0_5), (JS.lt r JS.lit_0_6)]; done.
    + intros [H1 H2].
      destruct (JS.gt r JS.lit_1_7), (JS.lt r JS.lit_1_8); try (destruct H1; done);
      destruct (JS.gt r JS.lit_0_5), (JS.lt r JS.lit_0_6); try (destruct H2; done);
      reflexivity.
  - intros w h Hw Hh aspect. subst aspect. unfold aspectOf. cbn [ToNumber].
    cbv beta iota zeta.
    assert (Hinj : ∀ c d : string, Returned c = Returned d ↔ c = d).
    { intros c d. split; [by intros [= ->]|by intros ->]. }
    rewrite !Hinj.
    destruct (classify_integers w h Hw Hh) as [Hl Hp].
    destruct (classify_three (JS.div (JS.of_Z w) (JS.of_Z h))) as [E|[E|E]];
      rewrite E in *; split_and!; try done.
    + split; [discriminate|]. intros [Hn _]. destruct Hn. by apply Hl.
    + intros Hr. assert (17 * h < 10 * w < 18 * h) by (by apply Hl). lia.
    + split; [discriminate|]. intros [_ Hn]. destruct Hn. by apply Hp.
    + intros Hr. assert (5 * h < 10 * w < 6 * h) by (by apply Hp). lia.
    + split; [intros _|done]. split; intros Hn; [apply Hl in Hn|apply Hp in Hn]; done.
  - split_and!; vm_compute; reflexivity.
Qed.
End Classification.


(** ** Further behaviour of the handler and of the probe

    Properties of the paths the handler takes before it touches any file,
    of what a run may change in the record store and the bucket, and of the
    classification on integer dimensions. *)

Section Behaviour.
Context `{Runtime}.
Variable env : Env.
Variable cfg : ApiConfig.

Lemma quiet_no_rm evs path force : forallb is_quiet evs = true → EvRm path force ∉ evs.
Proof.
  intros Hq Hin. apply list_elem_of_In in Hin.
  rewrite forallb_forall in Hq. by apply Hq in Hin.
Qed.

Lemma silent_all evs ev : forallb is_silent evs = true → ev ∈ evs → is_silent ev = true.
Proof.
  intros Hq Hin. apply list_elem_of_In in Hin.
  rewrite forallb_forall in Hq. by apply Hq.
Qed.

(** X1. When [getBearerToken] or [validateJWT] throws, the handler rejects
    the request with that very error before it reads the record: nothing is
    changed, [getVideo] is never called, and the answer is the same whatever
    the store holds, so an unauthenticated caller cannot learn whether a video
    id exists. *)
Theorem auth_failure_hides_record_existence req w videoId e :
  params_videoId req = Some videoId → videoId ≠ "" →
  (env_getBearerToken env (headers req) = Thrown e
   ∨ ∃ token, env_getBearerToken env (headers req) = Returned token
              ∧ env_validateJWT env token (jwtSecret cfg) = Thrown e) →
  ∃ w',
    handlerUploadVideo env cfg req w = (Thrown e, w')
    ∧ db w' = db w ∧ files w' = files w ∧ bucket w' = bucket w
    ∧ (∀ id, EvGetVideo id ∉ issued w w')
    ∧ ∀ w0, (handlerUploadVideo env cfg req w0).1 = Thrown e.
Proof.
  intros Hp Hne Hauth.
  apply String.eqb_neq in Hne.
  assert (Hrun : ∀ w0, ∃ evs,
            handlerUploadVideo env cfg req w0
            = (Thrown e, {| db := db w0; files := files w0; bucket := bucket w0;
                            trace := trace w0 ++ evs |})
            ∧ ∀ id, EvGetVideo id ∉ evs).
  { intros w0. unfold handlerUploadVideo. rewrite Hp, Hne.
    rewrite bind_run. unfold getBearerToken. rewrite bind_run.
    unfold effect at 1, settled at 1.
    destruct Hauth as [Ht|(token & Ht & Hj)]; rewrite Ht.
    - exists [EvGetBearerToken]. split; [done|].
      intros id Hin. rewrite elem_of_cons, elem_of_nil in Hin. by destruct Hin.
    - rewrite bind_run. unfold validateJWT. rewrite bind_run.
      unfold effect at 1, settled at 1. rewrite Hj.
      exists [EvGetBearerToken; EvValidateJWT token (jwtSecret cfg)]. split.
      + unfold log. cbn. by rewrite <- app_assoc.
      + intros id Hin. rewrite !elem_of_cons, elem_of_nil in Hin.
        by destruct Hin as [?|[?|[]]]. }
  destruct (Hrun w) as (evs & Hr & Hno).
  eexists. split; [exact Hr|]. split_and!; try done.
  - intros id. unfold issued. cbn [trace]. rewrite drop_app_length. apply Hno.
  - intros w0. destruct (Hrun w0) as (evs0 & -> & _). done.
Qed.

(** X2. For an authenticated caller and a video id the store does not hold,
    the handler throws [NotFoundError] with the message "Video not found"
    after exactly three calls (token, validation, lookup); the form data is
    not read and nothing is changed. *)
Theorem unknown_video_not_found req w videoId token user :
  params_videoId req = Some videoId → videoId ≠ "" →
  env_getBearerToken env (headers req) = Returned token →
  env_validateJWT env token (jwtSecret cfg) = Returned user →
  db w !! videoId = None →
  ∃ w',
    handlerUploadVideo env cfg req w = (Thrown (NotFoundError "Video not found"), w')
    ∧ db w' = db w ∧ files w' = files w ∧ bucket w' = bucket w
    ∧ issued w w' = [EvGetBearerToken; EvValidateJWT token (jwtSecret cfg);
                     EvGetVideo videoId].
Proof.
  intros Hp Hne Htok Hjwt Hrow. apply String.eqb_neq in Hne.
  unfold handlerUploadVideo. rewrite Hp, Hne.
  rewrite bind_run. unfold getBearerToken. rewrite bind_run.
  unfold effect at 1, settled at 1. rewrite Htok.
  rewrite bind_run. unfold validateJWT. rewrite bind_run.
  unfold effect at 1, settled at 1. rewrite Hjwt.
  rewrite bind_run. unfold getVideo. rewrite bind_run.
  unfold effect at 1, read at 1. cbn [db log]. rewrite Hrow.
  eexists. split; [reflexivity|]. split_and!; try done.
  apply issued_app. unfold log. cbn. by rewrite <- !app_assoc.
Qed.

(** X3. For the owner of the record, a body that cannot be read as form data
    rejects the request with the reader's error, and a form whose "video"
    part is absent or is a plain string rejects it with [BadRequestError]
    "Video file missing"; in both cases nothing was written, spawned,
    uploaded or stored. *)
Theorem non_file_part_rejected req w videoId token row :
  params_videoId req = Some videoId → videoId ≠ "" →
  env_getBearerToken env (headers req) = Returned token →
  env_validateJWT env token (jwtSecret cfg) = Returned (row_userID row) →
  db w !! videoId = Some row →
  let checked :=
    {| db := db w; files := files w; bucket := bucket w;
       trace := trace w ++ [EvGetBearerToken; EvValidateJWT token (jwtSecret cfg);
                            EvGetVideo videoId; EvFormData] |} in
  (∀ e, body req = Thrown e → handlerUploadVideo env cfg req w = (Thrown e, checked))
  ∧ (∀ fd,
       body req = Returned fd →
       (JS.assoc "video" fd = None ∨ ∃ s, JS.assoc "video" fd = Some (FormString s)) →
       handlerUploadVideo env cfg req w
       = (Thrown (BadRequestError "Video file missing"), checked)).
Proof.
  intros Hp Hne Htok Hjwt Hrow checked.
  assert (Hc : log EvFormData (after_lookup cfg w token videoId) = checked).
  { unfold checked, after_lookup, log. cbn. by rewrite <- !app_assoc. }
  assert (Hrun := handler_authorized env cfg req w videoId token _ row Hp Hne Htok Hjwt Hrow).
  rewrite String.eqb_refl in Hrun. cbn [negb] in Hrun. cbv zeta in Hrun.
  rewrite Hrun. unfold checkedUpload. rewrite bind_run. unfold formData.
  rewrite bind_run. unfold effect, settled, throw. cbv beta iota. rewrite Hc.
  split.
  - intros e ->. reflexivity.
  - intros fd -> [Hn|[s Hs]]; cbv beta iota.
    + by rewrite Hn.
    + by rewrite Hs.
Qed.

(** X4. Whatever the outcome of a run, a call that writes a file, spawns a
    process, uploads to the bucket, updates the record or removes a file is
    made only for a request that names a non-empty video id, is authenticated
    as the owner of that record, and carries a "video" file of at most 2^30
    bytes whose type is "video/mp4". *)
Theorem side_effects_need_owner_and_valid_file req w o w' ev :
  handlerUploadVideo env cfg req w = (o, w') →
  ev ∈ issued w w' → is_silent ev = false →
  ∃ videoId token row fd file,
    params_videoId req = Some videoId ∧ videoId ≠ "" ∧
    env_getBearerToken env (headers req) = Returned token ∧
    env_validateJWT env token (jwtSecret cfg) = Returned (row_userID row) ∧
    db w !! videoId = Some row ∧
    body req = Returned fd ∧ JS.assoc "video" fd = Some (FormFile file) ∧
    file_size file ≤ 2 ^ 30 ∧ file_type file = "video/mp4".
Proof.
  intros Hr Hin Hev.
  apply handler_run in Hr as [(e & evs & _ & _ & _ & _ & Ht & Hq)|Hr].
  - rewrite (issued_app _ _ _ Ht) in Hin.
    rewrite (silent_all _ _ Hq Hin) in Hev. done.
  - destruct Hr as (videoId & token & row & fd & file & ? & ? & ? & ? & ? & ? & ? & ? & ? & _).
    by exists videoId, token, row, fd, file.
Qed.

(** X5. The temporary files are removed only at the very end: a run that
    calls [rm] at all has already called [updateVideo]. Its log ends with the
    record update followed by the forced removals of the temporary and of
    the processed file, in that order, and holds neither a removal nor an
    update before them; so a run that stops before the record update removes
    nothing. *)
Theorem cleanup_only_after_update req w o w' path force :
  handlerUploadVideo env cfg req w = (o, w') →
  EvRm path force ∈ issued w w' →
  ∃ videoId pre u,
    let temp := path_join "/tmp" (videoId +:+ ".mp4") in
    let proc := temp +:+ ".processed.mp4" in
    params_videoId req = Some videoId
    ∧ issued w w' = pre ++ [EvUpdateVideo u; EvRm temp true; EvRm proc true]
    ∧ (∀ p f, EvRm p f ∉ pre) ∧ (∀ v, EvUpdateVideo v ∉ pre)
    ∧ (path = temp ∨ path = proc) ∧ force = true.
Proof.
  intros Hr Hin.
  apply handler_cases in Hr as [(e & evs & _ & _ & _ & Ht & Hq)|Hr].
  - rewrite (issued_app _ _ _ Ht) in Hin. by apply quiet_no_rm in Hin.
  - destruct Hr as (videoId & token & row & fd & file & p1 & cls & p2 & Hr).
    cbv zeta in Hr.
    destruct Hr as (Hp & _ & _ & _ & _ & _ & _ & _ & _ & _ & _ & _ & _ & _ & _ & _ & _
                    & _ & _ & Ht).
    apply issued_app in Ht. rewrite app_assoc in Ht. rewrite Ht in Hin.
    eexists videoId, _, _. cbv zeta. split; [exact Hp|]. split; [exact Ht|].
    split_and!.
    + intros p f Hp'. rewrite elem_of_app, !elem_of_cons, elem_of_nil in Hp'.
      by repeat destruct Hp' as [Hp'|Hp'].
    + intros v Hv. rewrite elem_of_app, !elem_of_cons, elem_of_nil in Hv.
      by repeat destruct Hv as [Hv|Hv].
    + rewrite !elem_of_app, !elem_of_cons, !elem_of_nil in Hin.
      repeat destruct Hin as [Hin|Hin]; try done; simplify_eq; auto.
    + rewrite !elem_of_app, !elem_of_cons, !elem_of_nil in Hin.
      repeat destruct Hin as [Hin|Hin]; try done; by simplify_eq.
Qed.

(** X6. When the upload was written to the temporary path and ffprobe then
    exits with a non-zero code, the request fails with "ffprobe error: "
    followed by the error text, and the file system is left exactly as
    ffprobe left it: the handler does not remove the temporary file, which
    is still there if ffprobe did not touch the files. *)
Theorem failed_probe_leaves_temp_file req w o w' videoId token row fd file p :
  handlerUploadVideo env cfg req w = (o, w') →
  params_videoId req = Some videoId → videoId ≠ "" →
  env_getBearerToken env (headers req) = Returned token →
  env_validateJWT env token (jwtSecret cfg) = Returned (row_userID row) →
  db w !! videoId = Some row →
  body req = Returned fd → JS.assoc "video" fd = Some (FormFile file) →
  file_size file ≤ 2 ^ 30 → file_type file = "video/mp4" →
  let temp := path_join "/tmp" (videoId +:+ ".mp4") in
  env_write env temp file = None →
  env_spawn env (ffprobe_argv temp) (<[temp := file_bytes file]> (files w)) = Returned p →
  exitCode p ≠ 0 →
  o = Thrown (Error ("ffprobe error: " +:+ stderr p))
  ∧ files w' = files_after p
  ∧ (files_after p = <[temp := file_bytes file]> (files w) →
     files w' !! temp = Some (file_bytes file)).
Proof.
  intros Hr Hp Hne Htok Hjwt Hrow Hb Hf Hs Hty temp Hw Hsp Hx.
  assert (Hrun := handler_authorized env cfg req w videoId token _ row Hp Hne Htok Hjwt Hrow).
  rewrite String.eqb_refl in Hrun. cbn [negb] in Hrun. cbv zeta in Hrun.
  rewrite (checkedUpload_file env cfg _ _ _ _ _ _ Hb Hf), MAX_UPLOAD_SIZE_eq in Hrun.
  destruct (file_size file >? 2 ^ 30) eqn:E; [apply Z.gtb_lt in E; lia|].
  rewrite Hty in Hrun. cbn [String.eqb Ascii.eqb Bool.eqb negb] in Hrun.
  rewrite Hrun in Hr. unfold storeUpload in Hr. fold temp in Hr.
  rewrite bind_run, Bun_write_run, Hw in Hr.
  rewrite bind_run in Hr. unfold getVideoAspectRatio in Hr.
  rewrite bind_run, Bun_spawn_run in Hr. cbn [files set_files log after_lookup] in Hr.
  rewrite Hsp in Hr. unfold settled, probeResult in Hr.
  apply Z.eqb_neq in Hx. rewrite Hx in Hr. cbn [negb] in Hr.
  injection Hr as <- <-. cbn [files set_files]. split_and!; try done.
  intros ->. apply lookup_insert_eq.
Qed.

(** X7. Whatever the outcome, a run neither creates nor deletes a record and
    never changes a record's owner, and the record of any video id other
    than the one named by the request is left exactly as it was. *)
Theorem only_addressed_record_changes req w o w' :
  handlerUploadVideo env cfg req w = (o, w') →
  dom (db w') = dom (db w)
  ∧ (∀ id, row_userID <$> db w' !! id = row_userID <$> db w !! id)
  ∧ (∀ id, params_videoId req ≠ Some id → db w' !! id = db w !! id).
Proof.
  intros Hr.
  apply handler_cases in Hr as [(e & evs & _ & Hd & _)|Hr].
  { by rewrite Hd. }
  destruct Hr as (videoId & token & row & fd & file & p1 & cls & p2 & Hr).
  cbv zeta in Hr.
  destruct Hr as (Hp & _ & _ & _ & Hrow & _ & _ & _ & _ & _ & _ & _ & _ & _ & _ & _ & Hd & _).
  rewrite Hd. split_and!.
  - apply dom_insert_lookup_L. eauto.
  - intros id. destruct (decide (videoId = id)) as [<-|Hne].
    + by rewrite lookup_insert_eq, Hrow.
    + by rewrite lookup_insert_ne.
  - intros id Hid. rewrite lookup_insert_ne; [done|]. intros ->. by rewrite Hp in Hid.
Qed.

(** X8. Whatever the outcome, a run either leaves the bucket untouched or
    stores exactly one object: the processed file, with content type
    "video/mp4", under the key made of one of the three classifications, a
    slash, the video id and ".mp4"; and in that case the record of that
    video holds the public URL of that key, so no run leaves an object in
    the bucket that the record does not reference. *)
Theorem stored_object_is_referenced req w o w' :
  handlerUploadVideo env cfg req w = (o, w') →
  bucket w' = bucket w
  ∨ ∃ videoId classification obj,
      let key := classification +:+ "/" +:+ videoId +:+ ".mp4" in
      params_videoId req = Some videoId ∧
      (classification = "landscape" ∨ classification = "portrait"
       ∨ classification = "other") ∧
      bucket w' = <[key := obj]> (bucket w) ∧
      s3_source obj = path_join "/tmp" (videoId +:+ ".mp4") +:+ ".processed.mp4" ∧
      s3_contentType obj = "video/mp4" ∧
      (∃ row, db w' !! videoId = Some row ∧ row_videoURL row = Some (publicURL cfg key)).
Proof.
  intros Hr.
  apply handler_cases in Hr as [(e & evs & _ & _ & Hb & _)|Hr]; [by left|right].
  destruct Hr as (videoId & token & row & fd & file & p1 & cls & p2 & Hr).
  cbv zeta in Hr.
  destruct Hr as (Hp & _ & _ & _ & Hrow & _ & _ & _ & _ & _ & _ & Ep & _ & _ & _ & _ & Hd
                  & _ & Hbk & _).
  set (proc := path_join "/tmp" (videoId +:+ ".mp4") +:+ ".processed.mp4") in *.
  exists videoId, cls,
    {| s3_source := proc; s3_body := files_after p2 !! proc; s3_contentType := "video/mp4" |}.
  cbv zeta. split_and!; try done.
  - eauto using probeResult_classes.
  - eexists. rewrite Hd, lookup_insert_eq. eauto.
Qed.

Lemma length_append (a s : string) :
  String.length (a +:+ s) = (String.length a + String.length s)%nat.
Proof.
  induction a as [|c a IH]; [reflexivity|].
  change (S (String.length (a +:+ s)) = S (String.length a + String.length s)).
  by rewrite IH.
Qed.

Lemma append_inj_r (a b s : string) : a +:+ s = b +:+ s → a = b.
Proof.
  revert b. induction a as [|c a IH]; intros [|d b] E.
  - reflexivity.
  - change (s = String d (b +:+ s)) in E. apply (f_equal String.length) in E.
    cbn [String.length] in E. rewrite length_append in E. lia.
  - change (String c (a +:+ s) = s) in E. apply (f_equal String.length) in E.
    cbn [String.length] in E. rewrite length_append in E. lia.
  - change (String c (a +:+ s) = String d (b +:+ s)) in E.
    injection E as -> E. f_equal. by apply IH.
Qed.

(** X9. The storage key determines the classification and the video id:
    two uploads get the same key only if the probe classified them alike and
    they name the same video, whatever characters the ids contain; and two
    keys have the same public URL only if they are equal. *)
Theorem storage_keys_do_not_collide exit1 out1 err1 exit2 out2 err2 cls1 cls2 id1 id2 :
  probeResult exit1 out1 err1 = Returned cls1 →
  probeResult exit2 out2 err2 = Returned cls2 →
  let key1 := cls1 +:+ "/" +:+ id1 +:+ ".mp4" in
  let key2 := cls2 +:+ "/" +:+ id2 +:+ ".mp4" in
  (key1 = key2 → cls1 = cls2 ∧ id1 = id2)
  ∧ (publicURL cfg key1 = publicURL cfg key2 → key1 = key2).
Proof.
  intros H1 H2 key1 key2. split.
  - subst key1 key2.
    apply probeResult_classes in H1 as [-> | [-> | ->]];
      apply probeResult_classes in H2 as [-> | [-> | ->]]; intros E;
      try (exfalso; vm_compute in E; discriminate E).
    all: split; [done|].
    all: do 2 apply (inj (String.app _)) in E; by apply append_inj_r in E.
  - unfold publicURL. intros E.
    by repeat apply (inj (String.app _)) in E.
Qed.

(** X10. When ffprobe exits with code 0 but its output is not usable:
    output that is not JSON makes the probe throw a [SyntaxError]; the JSON
    value null makes it throw a [TypeError]; a boolean, a number, a string or
    an array at top level makes it throw [Error] "No video streams found";
    and a stream list whose first entry is null makes it throw a
    [TypeError]. None of these is reported as an ffprobe error. *)
Theorem probe_rejects_malformed_output filepath w p :
  env_spawn env (ffprobe_argv filepath) (files w) = Returned p →
  exitCode p = 0 →
  (JSON_parse (stdout p) = None →
   (getVideoAspectRatio env filepath w).1 = Thrown SyntaxError)
  ∧ (JSON_parse (stdout p) = Some JS.Null →
     (getVideoAspectRatio env filepath w).1 = Thrown TypeError)
  ∧ (∀ v, JSON_parse (stdout p) = Some v →
          (∃ b, v = JS.Bool b) ∨ (∃ n, v = JS.Num n) ∨ (∃ s, v = JS.Str s)
          ∨ (∃ items, v = JS.Arr items) →
          (getVideoAspectRatio env filepath w).1 = Thrown (Error "No video streams found"))
  ∧ (∀ fields, JSON_parse (stdout p) = Some (JS.Obj fields) →
        JS.assoc "streams" fields = Some (JS.Arr [JS.Null]) →
        (getVideoAspectRatio env filepath w).1 = Thrown TypeError).
Proof.
  intros E Hx. rewrite (getVideoAspectRatio_run env _ _ _ E). cbn [fst].
  unfold probeResult. rewrite Hx. cbn [Z.eqb negb]. split_and!.
  - by intros ->.
  - by intros ->.
  - intros v -> [[b ->] | [[n ->] | [[s ->] | [items ->]]]]; done.
  - intros fields -> Hs. cbn. rewrite Hs. reflexivity.
Qed.

(** X11. A stream that lacks a width or a height is classified "other" when
    its other dimension is absent or converts to a number, since the
    quotient is then NaN; when the other dimension is an object or array
    with no primitive form, the division throws a [TypeError] instead.
    Integer dimensions of which one is 0 are classified "other": the
    quotient is an infinity, NaN or 0. *)
Theorem missing_or_zero_dimensions_are_other :
  (∀ v, JS.no_primitive v = false →
     aspectOf JS.Undefined v = Returned "other"
     ∧ aspectOf v JS.Undefined = Returned "other")
  ∧ (∀ v, JS.no_primitive v = true →
       aspectOf JS.Undefined v = Thrown TypeError
       ∧ aspectOf v JS.Undefined = Thrown TypeError)
  ∧ (∀ n : Z, 0 ≤ n < 2 ^ 48 →
       aspectOf (JS.Num (JS.of_Z n)) (JS.Num (JS.of_Z 0)) = Returned "other"
       ∧ aspectOf (JS.Num (JS.of_Z 0)) (JS.Num (JS.of_Z n)) = Returned "other")
  ∧ (∀ out err fields stream,
       JSON_parse out = Some (JS.Obj fields) →
       JS.assoc "streams" fields = Some (JS.Arr [JS.Obj stream]) →
       JS.assoc "width" stream = None ∨ JS.assoc "height" stream = None →
       let given v := JS.no_primitive (default JS.Undefined v) in
       probeResult 0 out err
       = if given (JS.assoc "width" stream) || given (JS.assoc "height" stream)
         then Thrown TypeError else Returned "other").
Proof.
  assert (Hok : ∀ v, JS.no_primitive v = false →
            aspectOf JS.Undefined v = Returned "other"
            ∧ aspectOf v JS.Undefined = Returned "other").
  { intros v Hv. unfold aspectOf. destruct (ToNumber_returns v Hv) as [n ->].
    cbn [ToNumber]. cbv beta iota zeta. split; [done|]. by destruct n as [[]|[]| |[]]. }
  assert (Hno : ∀ v, JS.no_primitive v = true →
            aspectOf JS.Undefined v = Thrown TypeError
            ∧ aspectOf v JS.Undefined = Thrown TypeError).
  { intros v Hv. unfold aspectOf. rewrite (ToNumber_throws v Hv). by cbn [ToNumber]. }
  split_and!; try done.
  - intros n Hn. unfold aspectOf. cbn [ToNumber]. cbv beta iota zeta.
    destruct (classify_integers n 0 Hn ltac:(lia)) as [Hl1 Hp1].
    destruct (classify_integers 0 n ltac:(lia) Hn) as [Hl2 Hp2].
    split; f_equal.
    + destruct (classify_three (JS.div (JS.of_Z n) (JS.of_Z 0))) as [E|[E|E]];
        [apply Hl1 in E; lia|apply Hp1 in E; lia|done].
    + destruct (classify_three (JS.div (JS.of_Z 0) (JS.of_Z n))) as [E|[E|E]];
        [apply Hl2 in E; lia|apply Hp2 in E; lia|done].
  - intros out err fields stream Hj Hs Hm given. subst given. unfold probeResult.
    cbn [Z.eqb negb]. rewrite Hj. cbn [JS.get default]. rewrite Hs.
    cbn -[aspectOf JS.no_primitive].
    destruct Hm as [-> | ->]; cbn [default JS.no_primitive orb].
    + destruct (JS.no_primitive (default JS.Undefined (JS.assoc "height" stream))) eqn:E;
        [by apply Hno|by apply Hok].
    + rewrite orb_false_r.
      destruct (JS.no_primitive (default JS.Undefined (JS.assoc "width" stream))) eqn:E;
        [by apply Hno|by apply Hok].
Qed.

(** X12. For integer dimensions below 2^48, a video classified "landscape"
    is classified "portrait" once its width and height are swapped. *)
Theorem rotated_landscape_is_portrait (w h : Z) :
  0 ≤ w < 2 ^ 48 → 0 ≤ h < 2 ^ 48 →
  aspectOf (JS.Num (JS.of_Z w)) (JS.Num (JS.of_Z h)) = Returned "landscape" →
  aspectOf (JS.Num (JS.of_Z h)) (JS.Num (JS.of_Z w)) = Returned "portrait".
Proof.
  intros Hw Hh. unfold aspectOf. cbn [ToNumber]. cbv beta iota zeta. intros [= E].
  apply (classify_integers w h Hw Hh) in E. f_equal.
  apply (classify_integers h w Hh Hw). lia.
Qed.

Lemma classify_determined r1 r2 :
  (classify r1 = "landscape" ↔ classify r2 = "landscape") →
  (classify r1 = "portrait" ↔ classify r2 = "portrait") →
  classify r1 = classify r2.
Proof.
  intros Hl Hp.
  destruct (classify_three r1) as [E|[E|E]], (classify_three r2) as [E'|[E'|E']];
    try congruence.
  all: first [apply Hl in E; congruence | apply Hp in E; congruence
             | apply Hl in E'; congruence | apply Hp in E'; congruence].
Qed.

(** X13. The classification depends on the proportions only: multiplying
    width and height by the same positive integer does not change it, as
    long as both products stay below 2^48, although the quotient is computed
    in rounded binary floating point. *)
Theorem classification_is_scale_invariant (k w h : Z) :
  0 < k → 0 ≤ w → 0 ≤ h → k * w < 2 ^ 48 → k * h < 2 ^ 48 →
  aspectOf (JS.Num (JS.of_Z (k * w))) (JS.Num (JS.of_Z (k * h)))
  = aspectOf (JS.Num (JS.of_Z w)) (JS.Num (JS.of_Z h)).
Proof.
  intros Hk Hw Hh Hkw Hkh. unfold aspectOf. cbn [ToNumber]. cbv beta iota zeta. f_equal.
  assert (Hw' : 0 ≤ w < 2 ^ 48) by nia.
  assert (Hh' : 0 ≤ h < 2 ^ 48) by nia.
  destruct (classify_integers (k * w) (k * h)) as [Hl1 Hp1]; [nia..|].
  destruct (classify_integers w h Hw' Hh') as [Hl2 Hp2].
  apply classify_determined.
  - rewrite Hl1, Hl2. nia.
  - rewrite Hp1, Hp2. nia.
Qed.

(** X14. The order in which the two forced removals are listed in the
    awaited pair does not matter: either order leaves the same files, leaves
    the store and the bucket alone, and succeeds exactly when neither removal
    fails; a removal that does not fail leaves no file at its path. *)
Theorem cleanup_order_is_irrelevant (a b : string) (w : World) :
  let r1 := Promise_all2 env (rm env a true) (rm env b true) w in
  let r2 := Promise_all2 env (rm env b true) (rm env a true) w in
  files r1.2 = files r2.2 ∧ db r1.2 = db w ∧ db r2.2 = db w
  ∧ bucket r1.2 = bucket w ∧ bucket r2.2 = bucket w
  ∧ ((∃ x, r1.1 = Returned x) ↔ (∃ y, r2.1 = Returned y))
  ∧ ((∃ x, r1.1 = Returned x) ↔ env_rm env a = None ∧ env_rm env b = None)
  ∧ (env_rm env a = None → files r1.2 !! a = None)
  ∧ (env_rm env b = None → files r1.2 !! b = None).
Proof.
  intros r1 r2. subst r1 r2. unfold Promise_all2. rewrite !rm_force_run.
  cbn [fst snd files db bucket set_files log].
  destruct (removed_lookup env a b (files w)) as [Ha Hb].
  split_and!; try done.
  - unfold remove_unless_failing.
    destruct (env_rm env a), (env_rm env b); try done. apply delete_delete.
  - destruct (env_rm env a), (env_rm env b); split; intros [? ?]; try done; eauto.
  - destruct (env_rm env a), (env_rm env b); split; try (intros [? ?]; done); eauto.
Qed.

(** X15. Uploading twice for the same video, both times with success: the
    record ends with the URL of the second upload and the owner it had, and
    the bucket still holds the object of the first upload beside that of the
    second, so a re-upload whose classification differs leaves the earlier
    object in the bucket, referenced by nothing. *)
Theorem reupload_overwrites_record_keeps_objects req1 req2 w resp1 w1 resp2 w2 :
  params_videoId req2 = params_videoId req1 →
  handlerUploadVideo env cfg req1 w = (Returned resp1, w1) →
  handlerUploadVideo env cfg req2 w1 = (Returned resp2, w2) →
  ∃ videoId row cls1 cls2,
    let key1 := cls1 +:+ "/" +:+ videoId +:+ ".mp4" in
    let key2 := cls2 +:+ "/" +:+ videoId +:+ ".mp4" in
    params_videoId req1 = Some videoId ∧
    db w !! videoId = Some row ∧
    videoURL (payload resp1) = Some (publicURL cfg key1) ∧
    videoURL (payload resp2) = Some (publicURL cfg key2) ∧
    db w2 = <[videoId := {| row_userID := row_userID row;
                            row_videoURL := Some (publicURL cfg key2) |}]> (db w) ∧
    is_Some (bucket w2 !! key1) ∧ is_Some (bucket w2 !! key2).
Proof.
  intros Hid H1 H2.
  apply handler_cases in H1 as [(e & evs & ? & _)|H1]; [done|].
  apply handler_cases in H2 as [(e & evs & ? & _)|H2]; [done|].
  destruct H1 as (videoId & token & row & fd & file & p1 & cls1 & p2 & H1). cbv zeta in H1.
  destruct H1 as (Hp1 & _ & _ & _ & Hrow1 & _ & _ & _ & _ & _ & _ & _ & _ & _ & _ & Ho1 & Hd1
                  & _ & Hb1 & _).
  destruct H2 as (videoId' & token' & row' & fd' & file' & p1' & cls2 & p2' & H2).
  cbv zeta in H2.
  destruct H2 as (Hp2 & _ & _ & _ & Hrow2 & _ & _ & _ & _ & _ & _ & _ & _ & _ & _ & Ho2 & Hd2
                  & _ & Hb2 & _).
  assert (videoId' = videoId) as -> by congruence.
  rewrite Hd1, lookup_insert_eq in Hrow2. injection Hrow2 as <-. cbn [row_userID] in *.
  exists videoId, row, cls1, cls2. cbv zeta.
  unfold cleanup_outcome in Ho1, Ho2. repeat case_match; simplify_eq.
  split_and!; try done.
  - rewrite Hd2, Hd1. apply insert_insert_eq.
  - rewrite Hb2, Hb1.
    destruct (decide (cls2 +:+ "/" +:+ videoId +:+ ".mp4" = cls1 +:+ "/" +:+ videoId +:+ ".mp4"))
      as [->|Hne].
    + rewrite lookup_insert_eq. eauto.
    + rewrite lookup_insert_ne, lookup_insert_eq by done. eauto.
  - rewrite Hb2, lookup_insert_eq. eauto.
Qed.

(** X16. The probe runs one subprocess and nothing else: [ffprobe -v error
    -select_streams v:0 -show_entries stream=width,height -of json <file>],
    on the files as they are. It touches neither the record store nor the
    bucket and leaves the files as the subprocess left them; a spawn that
    fails rejects with that failure; and it returns a classification only
    when the subprocess exited with code 0 and printed JSON, the
    classification being one of "landscape", "portrait" and "other". *)
Theorem probe_runs_ffprobe_once filepath w :
  let argv := ["ffprobe"; "-v"; "error"; "-select_streams"; "v:0"; "-show_entries";
               "stream=width,height"; "-of"; "json"; filepath] in
  let r := getVideoAspectRatio env filepath w in
  issued w r.2 = [EvSpawn argv]
  ∧ db r.2 = db w ∧ bucket r.2 = bucket w
  ∧ (∀ e, env_spawn env argv (files w) = Thrown e → r.1 = Thrown e ∧ files r.2 = files w)
  ∧ ∀ p, env_spawn env argv (files w) = Returned p →
      files r.2 = files_after p
      ∧ ∀ classification, r.1 = Returned classification →
          exitCode p = 0
          ∧ is_Some (JSON_parse (stdout p))
          ∧ (classification = "landscape" ∨ classification = "portrait"
             ∨ classification = "other").
Proof.
  intros argv r. subst r. unfold getVideoAspectRatio.
  change (ffprobe_argv filepath) with argv.
  rewrite bind_run, Bun_spawn_run.
  destruct (env_spawn env argv (files w)) as [p|e] eqn:E.
  - unfold settled. cbn [fst snd].
    split; [by apply issued_app|]. do 2 (split; [done|]). split; [done|].
    intros p' [= <-]. split; [done|]. intros cls Hr. split_and!.
    + unfold probeResult in Hr. destruct (exitCode p =? 0) eqn:Hx; [|done].
      by apply Z.eqb_eq.
    + unfold probeResult in Hr. destruct (negb (exitCode p =? 0)); [done|].
      destruct (JSON_parse (stdout p)); [eauto|done].
    + by apply probeResult_classes in Hr.
  - cbn [fst snd]. split; [by apply issued_app|]. do 2 (split; [done|]).
    split; [by intros e' [= <-]|]. intros p' [=].
Qed.

End Behaviour.


(** ** The properties on explicit requests *)

#[local] Existing Instance sample_runtime.

Lemma failed_request_with_updated_record :
  let env := sample_env 0 probe_1920x1080 "" (failing_removal "/tmp/v1.mp4") in
  let w := sample_world "alice" in
  let r := handlerUploadVideo env sample_cfg (sample_request (Some "v1") sample_file) w in
  r.1 = Thrown eperm
  ∧ row_videoURL <$> db w !! "v1" = Some None
  ∧ row_videoURL <$> db r.2 !! "v1"
    = Some (Some "https://tubely-bucket.s3.us-east-2.amazonaws.com/landscape/v1.mp4").
Proof. vm_compute. done. Qed.

Lemma failed_removal_fails_request :
  let env := sample_env 0 probe_1920x1080 ""
               (failing_removal "/tmp/v1.mp4.processed.mp4") in
  let r := handlerUploadVideo env sample_cfg (sample_request (Some "v1") sample_file)
             (sample_world "alice") in
  env_rm env "/tmp/v1.mp4.processed.mp4" = Some eperm
  ∧ r.1 = Thrown eperm
  ∧ issued (sample_world "alice") r.2 !! 10%nat = Some (EvRm "/tmp/v1.mp4.processed.mp4" true).
Proof. vm_compute. done. Qed.

Lemma empty_streams_message_is_capitalised :
  let env := sample_env 0 probe_empty_streams "" no_failure in
  JSON_parse probe_empty_streams = Some (JS.Obj [("streams", JS.Arr [])])
  ∧ (getVideoAspectRatio env "/tmp/v1.mp4" (sample_world "alice")).1
    = Thrown (Error "No video streams found")
  ∧ (getVideoAspectRatio env "/tmp/v1.mp4" (sample_world "alice")).1
    ≠ Thrown (Error "no video streams found").
Proof. vm_compute. done. Qed.

Lemma record_update_follows_upload_witness :
  let env := sample_env 0 probe_1920x1080 "" (failing_removal "/tmp/v1.mp4") in
  let w := sample_world "alice" in
  let r := handlerUploadVideo env sample_cfg (sample_request (Some "v1") sample_file) w in
  r = (Thrown eperm, r.2)
  ∧ (db r.2 = db w
     ∨ ∃ temp proc pre,
         issued w r.2 = pre ++ [EvRm temp true; EvRm proc true] ∧
         (env_rm env temp = Some eperm ∨ env_rm env proc = Some eperm)).
Proof.
  intros env w r.
  assert (Hr : r = (Thrown eperm, r.2)) by (vm_compute; reflexivity).
  split; [exact Hr|].
  exact (proj2 (record_update_follows_upload env sample_cfg _ w _ _ Hr) eperm eq_refl).
Defined.


Lemma cleanup_attempts_both_removals_witness :
  let env := sample_env 0 probe_1920x1080 "" no_failure in
  let w := sample_world "alice" in
  let r := handlerUploadVideo env sample_cfg (sample_request (Some "v1") sample_file) w in
  r = (Returned sample_response, r.2) ∧ ∃ v, EvUpdateVideo v ∈ issued w r.2.
Proof.
  intros env w r.
  assert (Hr : r = (Returned sample_response, r.2)) by (vm_compute; reflexivity).
  split; [exact Hr|].
  exact (proj1 (cleanup_attempts_both_removals env sample_cfg _ w _ _ Hr) _ eq_refl).
Defined.

Lemma stored_under_classified_key_witness :
  let env := sample_env 0 probe_1920x1080 "" no_failure in
  let w := sample_world "alice" in
  let r := handlerUploadVideo env sample_cfg (sample_request (Some "v1") sample_file) w in
  r = (Returned sample_response, r.2) ∧ status sample_response = 200.
Proof.
  intros env w r.
  assert (Hr : r = (Returned sample_response, r.2)) by (vm_compute; reflexivity).
  split; [exact Hr|].
  destruct (stored_under_classified_key env sample_cfg _ w _ _ Hr)
    as (videoId & cls & probe & fs & _ & _ & _ & _ & _ & _ & _ & Hs & _).
  exact Hs.
Defined.

Lemma upload_size_limit_witness :
  let env := sample_env 0 probe_1920x1080 "" no_failure in
  let w := sample_world "alice" in
  file_size oversized_file > 2 ^ 30
  ∧ (handlerUploadVideo env sample_cfg (sample_request (Some "v1") oversized_file) w).1
    = Thrown (BadRequestError "Video file exceeds the maximum allowed size of 1GB").
Proof.
  intros env w.
  assert (Hs : file_size oversized_file > 2 ^ 30) by reflexivity.
  split; [exact Hs|].
  assert (Hne : "v1" ≠ "") by discriminate.
  destruct (upload_size_limit env sample_cfg (sample_request (Some "v1") oversized_file) w
              "v1" "token-of-alice" {| row_userID := "alice"; row_videoURL := None |}
              [("video", FormFile oversized_file)] oversized_file
              eq_refl Hne eq_refl eq_refl eq_refl eq_refl eq_refl)
    as (_ & Hbig & _).
  destruct (Hbig Hs) as (Hr & _). rewrite Hr. reflexivity.
Defined.

Lemma forbidden_when_not_owner_witness :
  let env := sample_env 0 probe_1920x1080 "" no_failure in
  let w := sample_world "bob" in
  (handlerUploadVideo env sample_cfg (sample_request (Some "v1") sample_file) w).1
  = Thrown (UserForbiddenError "User: alice is not authorized to update this video").
Proof.
  intros env w.
  assert (Hne : "v1" ≠ "") by discriminate.
  assert (Hu : "bob" ≠ "alice") by discriminate.
  destruct (forbidden_when_not_owner env sample_cfg (sample_request (Some "v1") sample_file) w
              "v1" "token-of-alice" "alice" {| row_userID := "bob"; row_videoURL := None |}
              eq_refl Hne eq_refl eq_refl eq_refl Hu) as (w' & Hr & _).
  rewrite Hr. reflexivity.
Defined.

Lemma empty_video_id_rejected_witness :
  let env := sample_env 0 probe_1920x1080 "" no_failure in
  let w := sample_world "alice" in
  handlerUploadVideo env sample_cfg (sample_request (Some "") sample_file) w
  = (Thrown (BadRequestError "Invalid video ID"), w).
Proof.
  intros env w. apply empty_video_id_rejected. left. reflexivity.
Defined.

Lemma probe_failure_messages_witness :
  let env := sample_env 2 "" "bad file" no_failure in
  ∃ message,
    (getVideoAspectRatio env "/tmp/v1.mp4" (sample_world "alice")).1 = Thrown (Error message)
    ∧ contains message "bad file".
Proof.
  intros env.
  destruct (probe_failure_messages env "/tmp/v1.mp4" (sample_world "alice")
              {| exitCode := 2; stdout := ""; stderr := "bad file"; files_after := ∅ |}
              eq_refl) as [Hne _].
  destruct Hne as (message & Hm & _ & Hc); [discriminate|].
  exists message. split; [exact Hm|exact Hc].
Defined.

Lemma probe_without_streams_field_witness :
  let env := sample_env 0 probe_programs_only "" no_failure in
  (getVideoAspectRatio env "/tmp/v1.mp4" (sample_world "alice")).1
  = Thrown (Error "No video streams found").
Proof.
  intros env.
  exact (proj1 (probe_without_streams_field env "/tmp/v1.mp4" (sample_world "alice")
              {| exitCode := 0; stdout := probe_programs_only; stderr := "";
                 files_after := ∅ |}
              [("programs", JS.Arr [])] eq_refl eq_refl eq_refl eq_refl)).
Defined.

Lemma fast_start_output_path_witness :
  let env := sample_env 0 probe_1920x1080 "" no_failure in
  let w := {| db := ∅; files := {["/tmp/v1.mp4" := file_bytes sample_file]}; bucket := ∅;
              trace := [] |} in
  let r := processVideoForFastStart env "/tmp/v1.mp4" w in
  r.1 = Returned "/tmp/v1.mp4.processed.mp4"
  ∧ files r.2 !! "/tmp/v1.mp4.processed.mp4" = Some (file_bytes sample_file)
  ∧ files r.2 !! "/tmp/v1.mp4" = Some (file_bytes sample_file).
Proof.
  intros env w r.
  destruct (fast_start_output_path env "/tmp/v1.mp4" w) as (_ & _ & _ & _ & _ & Hp).
  destruct (Hp {| exitCode := 0; stdout := ""; stderr := "";
                  files_after := <["/tmp/v1.mp4.processed.mp4" := file_bytes sample_file]>
                                   (files w) |} eq_refl)
    as (_ & Hwritten & _ & Hok).
  destruct (Hwritten (file_bytes sample_file) eq_refl) as [Hout Hrest].
  split; [exact (Hok eq_refl)|]. split; [exact Hout|].
  assert (Hne : "/tmp/v1.mp4" ≠ "/tmp/v1.mp4" +:+ ".processed.mp4") by discriminate.
  exact (eq_trans (Hrest "/tmp/v1.mp4" Hne) eq_refl).
Defined.

Lemma aspect_classification_witness :
  (0 ≤ 3840 < 2 ^ 48 ∧ 0 ≤ 2160 < 2 ^ 48)
  ∧ aspectOf (JS.Num (JS.of_Z 3840)) (JS.Num (JS.of_Z 2160)) = Returned "landscape".
Proof.
  assert (Hw : 0 ≤ 3840 < 2 ^ 48) by lia.
  assert (Hh : 0 ≤ 2160 < 2 ^ 48) by lia.
  destruct aspect_classification as (_ & _ & _ & _ & _ & Hint & _).
  destruct (Hint 3840 2160 Hw Hh) as (Hl & _).
  split; [done|]. apply Hl. lia.
Defined.

Lemma auth_failure_hides_record_existence_witness :
  let env := without_token unauthenticated (sample_env 0 probe_1920x1080 "" no_failure) in
  let req := sample_request (Some "v1") sample_file in
  (handlerUploadVideo env sample_cfg req (sample_world "alice")).1 = Thrown unauthenticated
  ∧ (handlerUploadVideo env sample_cfg req (sample_world "bob")).1 = Thrown unauthenticated.
Proof.
  intros env req.
  assert (Hne : "v1" ≠ "") by discriminate.
  destruct (auth_failure_hides_record_existence env sample_cfg req (sample_world "alice") "v1"
              unauthenticated eq_refl Hne (or_introl eq_refl)) as (w' & _ & _ & _ & _ & _ & Hall).
  split; apply Hall.
Defined.

Lemma unknown_video_not_found_witness :
  let env := sample_env 0 probe_1920x1080 "" no_failure in
  let w := sample_world "alice" in
  db w !! "v2" = None
  ∧ (handlerUploadVideo env sample_cfg (sample_request (Some "v2") sample_file) w).1
    = Thrown (NotFoundError "Video not found").
Proof.
  intros env w.
  assert (Hne : "v2" ≠ "") by discriminate.
  assert (Hrow : db w !! "v2" = None) by reflexivity.
  split; [exact Hrow|].
  destruct (unknown_video_not_found env sample_cfg (sample_request (Some "v2") sample_file) w
              "v2" "token-of-alice" "alice" eq_refl Hne eq_refl eq_refl Hrow)
    as (w' & Hr & _).
  rewrite Hr. reflexivity.
Defined.

Lemma non_file_part_rejected_witness :
  let env := sample_env 0 probe_1920x1080 "" no_failure in
  let w := sample_world "alice" in
  (handlerUploadVideo env sample_cfg (text_request (Some "v1")) w).1
  = Thrown (BadRequestError "Video file missing").
Proof.
  intros env w.
  assert (Hne : "v1" ≠ "") by discriminate.
  destruct (non_file_part_rejected env sample_cfg (text_request (Some "v1")) w
              "v1" "token-of-alice" {| row_userID := "alice"; row_videoURL := None |}
              eq_refl Hne eq_refl eq_refl eq_refl) as [_ Hpart].
  rewrite (Hpart [("video", FormString "clip.mp4")] eq_refl
             (or_intror (ex_intro _ "clip.mp4" eq_refl))).
  reflexivity.
Defined.

Lemma side_effects_need_owner_and_valid_file_witness :
  let env := sample_env 0 probe_1920x1080 "" no_failure in
  let w := sample_world "alice" in
  let r := handlerUploadVideo env sample_cfg (sample_request (Some "v1") sample_file) w in
  issued w r.2 !! 4%nat = Some (EvBunWrite "/tmp/v1.mp4")
  ∧ ∃ videoId row, params_videoId (sample_request (Some "v1") sample_file) = Some videoId
                   ∧ db w !! videoId = Some row.
Proof.
  intros env w r.
  assert (Hi : issued w r.2 !! 4%nat = Some (EvBunWrite "/tmp/v1.mp4"))
    by (vm_compute; reflexivity).
  split; [exact Hi|].
  destruct (side_effects_need_owner_and_valid_file env sample_cfg _ w r.1 r.2
              (EvBunWrite "/tmp/v1.mp4") (surjective_pairing r)
              (list_elem_of_lookup_2 _ _ _ Hi) eq_refl)
    as (videoId & token & row & fd & file & Hp & _ & _ & _ & Hrow & _).
  exists videoId, row. split; [exact Hp|exact Hrow].
Defined.

Lemma cleanup_only_after_update_witness :
  let env := sample_env 0 probe_1920x1080 "" no_failure in
  let w := sample_world "alice" in
  let r := handlerUploadVideo env sample_cfg (sample_request (Some "v1") sample_file) w in
  issued w r.2 !! 9%nat = Some (EvRm "/tmp/v1.mp4" true)
  ∧ ∃ pre u proc,
      issued w r.2 = pre ++ [EvUpdateVideo u; EvRm "/tmp/v1.mp4" true; EvRm proc true]
      ∧ ∀ p f, EvRm p f ∉ pre.
Proof.
  intros env w r.
  assert (Hi : issued w r.2 !! 9%nat = Some (EvRm "/tmp/v1.mp4" true))
    by (vm_compute; reflexivity).
  split; [exact Hi|].
  destruct (cleanup_only_after_update env sample_cfg _ w r.1 r.2 _ _ (surjective_pairing r)
              (list_elem_of_lookup_2 _ _ _ Hi))
    as (videoId & pre & u & Hp & Hlog & Hpre & _).
  injection Hp as <-.
  exists pre, u, ("/tmp/v1.mp4" +:+ ".processed.mp4"). split; [exact Hlog|exact Hpre].
Defined.

Lemma failed_probe_leaves_temp_file_witness :
  let env := sample_env 2 "" "bad file" no_failure in
  let w := sample_world "alice" in
  let r := handlerUploadVideo env sample_cfg (sample_request (Some "v1") sample_file) w in
  r.1 = Thrown (Error "ffprobe error: bad file")
  ∧ files r.2 !! "/tmp/v1.mp4" = Some (file_bytes sample_file).
Proof.
  intros env w r.
  assert (Hne : "v1" ≠ "") by discriminate.
  assert (Hs : file_size sample_file ≤ 2 ^ 30) by (vm_compute; discriminate).
  assert (Hx : (2 : Z) ≠ 0) by discriminate.
  destruct (failed_probe_leaves_temp_file env sample_cfg
              (sample_request (Some "v1") sample_file) w r.1 r.2
              "v1" "token-of-alice" {| row_userID := "alice"; row_videoURL := None |}
              [("video", FormFile sample_file)] sample_file
              {| exitCode := 2; stdout := ""; stderr := "bad file";
                 files_after := <["/tmp/v1.mp4" := file_bytes sample_file]> (files w) |}
              (surjective_pairing r) eq_refl Hne eq_refl eq_refl eq_refl eq_refl eq_refl
              Hs eq_refl eq_refl eq_refl Hx) as (Ho & _ & Hkept).
  split; [exact Ho|exact (Hkept eq_refl)].
Defined.

Lemma only_addressed_record_changes_witness :
  let env := sample_env 0 probe_1920x1080 "" no_failure in
  let w := sample_world "alice" in
  let r := handlerUploadVideo env sample_cfg (sample_request (Some "v1") sample_file) w in
  r = (Returned sample_response, r.2)
  ∧ dom (db r.2) = dom (db w)
  ∧ row_userID <$> db r.2 !! "v1" = row_userID <$> db w !! "v1".
Proof.
  intros env w r.
  assert (Hr : r = (Returned sample_response, r.2)) by (vm_compute; reflexivity).
  split; [exact Hr|].
  destruct (only_addressed_record_changes env sample_cfg _ w _ _ Hr) as (Hd & Ho & _).
  split; [exact Hd|exact (Ho "v1")].
Defined.

Lemma stored_object_is_referenced_witness :
  let env := sample_env 0 probe_1920x1080 "" no_failure in
  let w := sample_world "alice" in
  let r := handlerUploadVideo env sample_cfg (sample_request (Some "v1") sample_file) w in
  r = (Returned sample_response, r.2)
  ∧ (bucket r.2 = bucket w
     ∨ ∃ videoId classification obj,
         bucket r.2 = <[classification +:+ "/" +:+ videoId +:+ ".mp4" := obj]> (bucket w)
         ∧ s3_contentType obj = "video/mp4").
Proof.
  intros env w r.
  assert (Hr : r = (Returned sample_response, r.2)) by (vm_compute; reflexivity).
  split; [exact Hr|].
  destruct (stored_object_is_referenced env sample_cfg _ w _ _ Hr)
    as [Hb|(videoId & cls & obj & _ & _ & Hb & _ & Ht & _)].
  - left. exact Hb.
  - right. exists videoId, cls, obj. split; [exact Hb|exact Ht].
Defined.

Lemma storage_keys_do_not_collide_witness :
  probeResult 0 probe_1920x1080 "" = Returned "landscape"
  ∧ ("landscape" +:+ "/" +:+ "v1" +:+ ".mp4" = "landscape" +:+ "/" +:+ "v1" +:+ ".mp4" →
     "landscape" = "landscape" ∧ "v1" = "v1").
Proof.
  assert (Hc : probeResult 0 probe_1920x1080 "" = Returned "landscape")
    by (vm_compute; reflexivity).
  split; [exact Hc|].
  exact (proj1 (storage_keys_do_not_collide sample_cfg 0 probe_1920x1080 "" 0 probe_1920x1080 ""
                  "landscape" "landscape" "v1" "v1" Hc Hc)).
Defined.

Lemma probe_rejects_malformed_output_witness :
  let env := sample_env 0 "ffprobe version 7" "" no_failure in
  JSON_parse "ffprobe version 7" = None
  ∧ (getVideoAspectRatio env "/tmp/v1.mp4" (sample_world "alice")).1 = Thrown SyntaxError.
Proof.
  intros env.
  assert (Hj : JSON_parse "ffprobe version 7" = None) by reflexivity.
  split; [exact Hj|].
  destruct (probe_rejects_malformed_output env "/tmp/v1.mp4" (sample_world "alice")
              {| exitCode := 0; stdout := "ffprobe version 7"; stderr := "";
                 files_after := ∅ |} eq_refl eq_refl) as (Hsyntax & _).
  exact (Hsyntax Hj).
Defined.

Lemma missing_or_zero_dimensions_are_other_witness :
  0 ≤ 1080 < 2 ^ 48
  ∧ aspectOf (JS.Num (JS.of_Z 1080)) (JS.Num (JS.of_Z 0)) = Returned "other".
Proof.
  assert (Hn : 0 ≤ 1080 < 2 ^ 48) by lia.
  split; [exact Hn|].
  destruct missing_or_zero_dimensions_are_other as (_ & _ & Hzero & _).
  exact (proj1 (Hzero 1080 Hn)).
Defined.

Lemma rotated_landscape_is_portrait_witness :
  aspectOf (JS.Num (JS.of_Z 1920)) (JS.Num (JS.of_Z 1080)) = Returned "landscape"
  ∧ aspectOf (JS.Num (JS.of_Z 1080)) (JS.Num (JS.of_Z 1920)) = Returned "portrait".
Proof.
  assert (Hw : 0 ≤ 1920 < 2 ^ 48) by lia.
  assert (Hh : 0 ≤ 1080 < 2 ^ 48) by lia.
  assert (Hl : aspectOf (JS.Num (JS.of_Z 1920)) (JS.Num (JS.of_Z 1080))
               = Returned "landscape")
    by (vm_compute; reflexivity).
  split; [exact Hl|].
  exact (rotated_landscape_is_portrait 1920 1080 Hw Hh Hl).
Defined.

Lemma classification_is_scale_invariant_witness :
  aspectOf (JS.Num (JS.of_Z (2 * 960))) (JS.Num (JS.of_Z (2 * 540)))
  = aspectOf (JS.Num (JS.of_Z 960)) (JS.Num (JS.of_Z 540)).
Proof.
  apply classification_is_scale_invariant; lia.
Defined.

Lemma cleanup_order_is_irrelevant_witness :
  let env := sample_env 0 probe_1920x1080 "" no_failure in
  let w := sample_world "alice" in
  files (Promise_all2 env (rm env "/tmp/v1.mp4" true)
           (rm env "/tmp/v1.mp4.processed.mp4" true) w).2
  = files (Promise_all2 env (rm env "/tmp/v1.mp4.processed.mp4" true)
             (rm env "/tmp/v1.mp4" true) w).2.
Proof.
  intros env w.
  exact (proj1 (cleanup_order_is_irrelevant env "/tmp/v1.mp4" "/tmp/v1.mp4.processed.mp4" w)).
Defined.

Lemma reupload_overwrites_record_keeps_objects_witness :
  let env := sample_env 0 probe_1920x1080 "" no_failure in
  let req := sample_request (Some "v1") sample_file in
  let w := sample_world "alice" in
  let r1 := handlerUploadVideo env sample_cfg req w in
  let r2 := handlerUploadVideo env sample_cfg req r1.2 in
  r1 = (Returned sample_response, r1.2)
  ∧ r2 = (Returned sample_response, r2.2)
  ∧ ∃ videoId cls, is_Some (bucket r2.2 !! (cls +:+ "/" +:+ videoId +:+ ".mp4")).
Proof.
  intros env req w r1 r2.
  assert (H1 : r1 = (Returned sample_response, r1.2)) by (vm_compute; reflexivity).
  assert (H2 : r2 = (Returned sample_response, r2.2)) by (vm_compute; reflexivity).
  split; [exact H1|]. split; [exact H2|].
  destruct (reupload_overwrites_record_keeps_objects env sample_cfg req req w _ _ _ _
              eq_refl H1 H2) as (videoId & row & cls1 & cls2 & _ & _ & _ & _ & _ & Hk & _).
  exists videoId, cls1. exact Hk.
Defined.

Lemma probe_runs_ffprobe_once_witness :
  let env := sample_env 0 probe_1920x1080 "" no_failure in
  let r := getVideoAspectRatio env "/tmp/v1.mp4" (sample_world "alice") in
  r.1 = Returned "landscape"
  ∧ is_Some (JSON_parse probe_1920x1080)
  ∧ files r.2 = files (sample_world "alice").
Proof.
  intros env r.
  assert (Hr : r.1 = Returned "landscape") by (vm_compute; reflexivity).
  split; [exact Hr|].
  destruct (probe_runs_ffprobe_once env "/tmp/v1.mp4" (sample_world "alice"))
    as (_ & _ & _ & _ & Hp).
  destruct (Hp {| exitCode := 0; stdout := probe_1920x1080; stderr := "";
                  files_after := files (sample_world "alice") |} eq_refl) as [Hf Hc].
  destruct (Hc "landscape" Hr) as (_ & Hj & _).
  split; [exact Hj|exact Hf].
Defined.
